(** * CSV Mapper: the reference UI and the validation contract

    A shallow embedding of the React client of the CSV mapper
    (ui/src/App.tsx, ui/src/components/*.tsx, ui/src/types/index.ts) and
    of the validation engine the client talks to.

    - JavaScript objects used as dictionaries ([Record<string, string>])
      are finite maps [gmap string jsval]; a value is a string, [null]
      or [undefined], because the code itself guards against the last
      two ([v != null]).
    - React state is a record; a handler is a state transformer.  A call
      to the backend is made explicit: a handler yields the call it
      sends, the state update that happens before the [await], and the
      continuation that consumes the answer.
    - A confidence is a rational number: every finite double is one, and
      [>=] on finite doubles is the order of the rationals.

    An assignment [o[k] = v] is modelled with the one key it treats
    apart, [__proto__].  A read [o[k]] is modelled on the own properties
    only: what it finds on [Object.prototype] for a key that [o] does
    not have is stated as a hypothesis where it matters.  The engine
    itself is not part of the client; [Module Engine] follows the
    specification. *)

From Stdlib Require Import QArith Ascii String.
From stdpp Require Import gmap strings list fin_maps pretty.

Local Open Scope string_scope.
Local Open Scope list_scope.

(** ** JavaScript values stored in a mapping object *)

Inductive jsval : Type :=
  | JNull
  | JUndefined
  | JString (s : string).

#[global] Instance jsval_eq_dec : EqDecision jsval.
Proof. solve_decision. Defined.

(** [v != null]: loose inequality, false for both [null] and [undefined]. *)
Definition loose_ne_null (v : jsval) : bool :=
  match v with
  | JNull | JUndefined => false
  | JString _ => true
  end.

(** [v !== w]: strict inequality. *)
Definition strict_ne (v w : jsval) : bool := negb (bool_decide (v = w)).

(** Truthiness of a string: every string but the empty one. *)
Definition truthy (s : string) : bool := negb (String.eqb s "").

(** [a || b] on strings. *)
Definition or_else (a b : string) : string := if truthy a then a else b.

(** [o[k] = v] on an object created as [{}], for a value of [jsval].
    Every key becomes, or stays, an own property, but [__proto__]: as
    long as [o] has no own property of that name, the name is the
    accessor inherited from [Object.prototype], whose setter defines
    nothing on [o] (and ignores a string altogether). *)
Definition assign (o : gmap string jsval) (k : string) (v : jsval)
    : gmap string jsval :=
  match String.eqb k "__proto__", o !! k with
  | true, None => o
  | _, _ => <[k := v]> o
  end.

(** The names that every object inherits from [Object.prototype]. *)
Definition Object_prototype_names : list string :=
  [ "__proto__"; "constructor"; "hasOwnProperty"; "isPrototypeOf";
    "propertyIsEnumerable"; "toLocaleString"; "toString"; "valueOf";
    "__defineGetter__"; "__defineSetter__"; "__lookupGetter__";
    "__lookupSetter__" ].

(** [Object.entries(o)]: the own properties of [o] as key/value pairs. *)
Definition Object_entries (o : gmap string jsval) : list (string * jsval) :=
  map_to_list o.

(** [Object.fromEntries(l)]: properties are defined from left to right, a
    later pair with the same key overwrites an earlier one. *)
Definition Object_fromEntries (l : list (string * jsval)) : gmap string jsval :=
  foldl (λ acc kv, <[kv.1 := kv.2]> acc) ∅ l.

(** The callback [([_, v]) => v != null && v !== ''] of the three
    handlers that send a mapping to the backend. *)
Definition is_mapped (kv : string * jsval) : bool :=
  loose_ne_null kv.2 && strict_ne kv.2 (JString "").

(** [Object.fromEntries(Object.entries(mapping).filter(...))] *)
Definition filterMapping (mapping : gmap string jsval) : gmap string jsval :=
  Object_fromEntries (List.filter is_mapped (Object_entries mapping)).

(** ** String builtins *)

(** The white space of [String.prototype.trim] among the code units a
    [string] of this development can hold (one byte per unit): TAB, LF,
    VT, FF, CR, SPACE and NO-BREAK SPACE. *)
Definition is_js_whitespace (c : ascii) : bool :=
  match c with
  | "009" | "010" | "011" | "012" | "013" | " " | "160" => true
  | _ => false
  end%char.

Fixpoint trimStart (s : string) : string :=
  match s with
  | EmptyString => EmptyString
  | String c s' => if is_js_whitespace c then trimStart s' else s
  end.

Definition trimEnd (s : string) : string :=
  String.rev (trimStart (String.rev s)).

(** [s.trim()] *)
Definition trim (s : string) : string := trimEnd (trimStart s).

(** The double quote, as a one-character string. *)
Definition dquote : string := String "034"%char EmptyString.

(** A state update queued by a handler ([setX(...)]), and the state after
    the queue has been applied in order. *)
Definition run_updates {S : Type} (queue : list (S → S)) (s : S) : S :=
  foldl (λ acc u, u acc) s queue.

(** The outcome of an awaited backend call: the promise resolves with a
    value or rejects with an [Error] carrying a message. *)
Inductive Outcome (R : Type) : Type :=
  | Resolved (r : R)
  | Rejected (message : string).
Arguments Resolved {R} r.
Arguments Rejected {R} message.

(** ** The client: ui/src *)

Module UI.

(** *** ui/src/types/index.ts *)

Record SchemaField : Type := { name : string; required : bool }.

Record Schema : Type := { fields : list SchemaField }.

Record CsvColumn : Type := { column_name : string }.

Record Suggestion : Type :=
  { schema_field : string; csv_column : string; confidence : Q }.

Record SuggestMappingResponse : Type := { suggestions : list Suggestion }.

Record ValidateMappingResponse : Type :=
  { is_valid : bool; errors : list string }.

Record SaveMappingResponse : Type := { saved_id : string; saved_name : string }.

Record SavedMappingItem : Type := { item_id : string; item_name : string }.

(** *** ui/src/services/api.ts: the calls a handler can send *)

Inductive ApiCall : Type :=
  | suggestMapping (fileId : string) (hasHeader : bool)
  | validateMapping (fileId : string) (hasHeader : bool)
      (mapping : gmap string jsval)
  | saveMapping (name : string) (mapping : gmap string jsval)
  | saveData (fileId : string) (hasHeader : bool)
      (mapping : gmap string jsval).

(** The mapping object a call carries in its body, if it carries one. *)
Definition sent_mapping (c : ApiCall) : option (gmap string jsval) :=
  match c with
  | suggestMapping _ _ => None
  | validateMapping _ _ m | saveMapping _ m | saveData _ _ m => Some m
  end.

(** An async handler with one [await]: the call, the updates queued
    before it, and the updates queued once the call has settled. *)
Record Handler (S R : Type) : Type :=
  { call : ApiCall;
    before : list (S → S);
    after : Outcome R → list (S → S) }.
Arguments call {S R} h.
Arguments before {S R} h.
Arguments after {S R} h o.

Definition run_handler {S R : Type} (h : Handler S R)
    (backend : ApiCall → Outcome R) (s : S) : S :=
  run_updates (after h (backend (call h))) (run_updates (before h) s).

(** *** ui/src/App.tsx *)

Record AppState : Type :=
  { schema : option Schema;
    savedMappings : list SavedMappingItem;
    previewRows : list (list string);
    currentFileId : option string;
    currentHasHeader : bool;
    csvColumns : list CsvColumn;
    mapping : gmap string jsval;
    statusMessage : string }.

Definition setMapping (u : gmap string jsval → gmap string jsval)
    (st : AppState) : AppState :=
  {| schema := schema st; savedMappings := savedMappings st;
     previewRows := previewRows st; currentFileId := currentFileId st;
     currentHasHeader := currentHasHeader st; csvColumns := csvColumns st;
     mapping := u (mapping st); statusMessage := statusMessage st |}.

Definition setCurrentFileId (v : option string) (st : AppState) : AppState :=
  {| schema := schema st; savedMappings := savedMappings st;
     previewRows := previewRows st; currentFileId := v;
     currentHasHeader := currentHasHeader st; csvColumns := csvColumns st;
     mapping := mapping st; statusMessage := statusMessage st |}.

Definition setCurrentHasHeader (v : bool) (st : AppState) : AppState :=
  {| schema := schema st; savedMappings := savedMappings st;
     previewRows := previewRows st; currentFileId := currentFileId st;
     currentHasHeader := v; csvColumns := csvColumns st;
     mapping := mapping st; statusMessage := statusMessage st |}.

Definition setStatusMessage (v : string) (st : AppState) : AppState :=
  {| schema := schema st; savedMappings := savedMappings st;
     previewRows := previewRows st; currentFileId := currentFileId st;
     currentHasHeader := currentHasHeader st; csvColumns := csvColumns st;
     mapping := mapping st; statusMessage := v |}.

(** [handleUploadComplete]: three updates, in this order. *)
Definition handleUploadComplete (fileId : string) (hasHeader : bool)
    : list (AppState → AppState) :=
  [ setMapping (λ _, ∅);
    setCurrentFileId (Some fileId);
    setCurrentHasHeader hasHeader ].

(** The test [s.schema_field && s.confidence >= 0.5] of the loop. *)
Definition auto_applies (s : Suggestion) : bool :=
  truthy (schema_field s) && Qle_bool (1 # 2) (confidence s).

(** One iteration of [for (const s of suggestions)], on the pair
    [(newMapping, count)]: [newMapping[s.schema_field] = s.csv_column]
    and [count++]. *)
Definition auto_step (acc : gmap string jsval * nat) (s : Suggestion)
    : gmap string jsval * nat :=
  if auto_applies s
  then (assign acc.1 (schema_field s) (JString (csv_column s)), S acc.2)
  else acc.

Definition auto_loop (l : list Suggestion) : gmap string jsval * nat :=
  foldl auto_step (∅, 0%nat) l.

(** [handleAutoSuggest].  [data.suggestions || []] is [data.suggestions]
    itself: the interface makes it an array and every array is truthy. *)
Definition handleAutoSuggest (fileId : string) (hasHeader : bool)
    : Handler AppState SuggestMappingResponse :=
  {| call := suggestMapping fileId hasHeader;
     before := [ setStatusMessage "Generating suggestions..." ];
     after o :=
       match o with
       | Resolved data =>
           let '(newMapping, count) := auto_loop (suggestions data) in
           [ setMapping (λ _, newMapping);
             setStatusMessage
               (if (0 <? count)%nat
                then "Auto-mapped " +:+ pretty count +:+ " columns."
                else "No confident matches found.") ]
       | Rejected _ => [ setStatusMessage "Failed to auto-suggest." ]
       end |}.

(** [updateMapping]: [setMapping(prev => ({...prev, [schemaField]: csvColumn}))] *)
Definition updateMapping (schemaField csvColumn : string)
    : list (AppState → AppState) :=
  [ setMapping (λ prev, <[schemaField := JString csvColumn]> prev) ].

(** *** ui/src/components/MappingTable.tsx *)

Record MappingRow : Type :=
  { row_label : string;
    row_star : string;
    select_value : string;
    select_options : list string;
    onChange : string → list (AppState → AppState) }.

(** [mapping[field.name] ?? ''] *)
Definition selected (mapping : gmap string jsval) (f : string) : string :=
  match mapping !! f with
  | Some (JString s) => s
  | _ => ""
  end.

Definition MappingTable (schema : Schema) (csvColumns : list CsvColumn)
    (mapping : gmap string jsval)
    (onChangeMapping : string → string → list (AppState → AppState))
    : list MappingRow :=
  (λ field,
     {| row_label := name field;
        row_star := if required field then "*" else "";
        select_value := selected mapping (name field);
        select_options := "" :: (column_name <$> csvColumns);
        onChange v := onChangeMapping (name field) v |}) <$> fields schema.

(** *** ActionPanel and ValidationReport *)

Inductive Status : Type := idle | validating | success | error.

Record ActionPanelProps : Type :=
  { ap_fileId : string;
    ap_hasHeader : bool;
    ap_mapping : gmap string jsval }.

Record ActionPanelState : Type :=
  { status : Status; errorList : list string }.

Definition setStatus (v : Status) (st : ActionPanelState) : ActionPanelState :=
  {| status := v; errorList := errorList st |}.

Definition setErrorList (v : list string) (st : ActionPanelState)
    : ActionPanelState :=
  {| status := status st; errorList := v |}.

(** [handleValidate].  [data.errors || []] is [data.errors] itself, for
    the same reason as in [handleAutoSuggest]. *)
Definition handleValidate (props : ActionPanelProps)
    : Handler ActionPanelState ValidateMappingResponse :=
  let mappingFiltered := filterMapping (ap_mapping props) in
  {| call := validateMapping (ap_fileId props) (ap_hasHeader props) mappingFiltered;
     before := [ setStatus validating; setErrorList [] ];
     after o :=
       match o with
       | Resolved data =>
           if is_valid data
           then [ setStatus success ]
           else [ setStatus error; setErrorList (errors data) ]
       | Rejected _ =>
           [ setStatus error;
             setErrorList
               ["System error: Failed to connect to validation service."] ]
       end |}.

Definition MAX_DISPLAY : Z := 100.

(** What [ValidationReport] puts on the screen: the count and the plural
    mark of the header line, the list items, and the closing line
    [... and {remaining} more errors.] when there is one. *)
Record ReportView : Type :=
  { header_total : Z;
    header_plural : bool;
    items : list string;
    more : option Z }.

(** [errors.slice(0, end)] for a non-negative [end]. *)
Definition slice_from_0 {A : Type} (l : list A) (e : Z) : list A :=
  take (Z.to_nat e) l.

Definition ValidationReport (errors : list string) : ReportView :=
  let totalCount := Z.of_nat (length errors) in
  let displayErrors := slice_from_0 errors MAX_DISPLAY in
  let remaining := (totalCount - MAX_DISPLAY)%Z in
  {| header_total := totalCount;
     header_plural := negb (totalCount =? 1)%Z;
     items := displayErrors;
     more := if (0 <? remaining)%Z then Some remaining else None |}.

(** [{status === 'error' && errorList.length > 0 && <ValidationReport .../>}] *)
Definition ActionPanel_report (st : ActionPanelState) : option ReportView :=
  match status st with
  | error =>
      if (0 <? length (errorList st))%nat
      then Some (ValidationReport (errorList st))
      else None
  | _ => None
  end.

(** *** ui/src/components/StoragePanel.tsx *)

Record StoragePanelProps : Type :=
  { sp_fileId : string;
    sp_hasHeader : bool;
    sp_mapping : gmap string jsval }.

Record StoragePanelState : Type :=
  { mappingName : string;
    saveResult : string;
    saveClass : string;
    selectedId : string }.

Definition setSaveResult (v : string) (st : StoragePanelState)
    : StoragePanelState :=
  {| mappingName := mappingName st; saveResult := v;
     saveClass := saveClass st; selectedId := selectedId st |}.

Definition setSaveClass (v : string) (st : StoragePanelState)
    : StoragePanelState :=
  {| mappingName := mappingName st; saveResult := saveResult st;
     saveClass := v; selectedId := selectedId st |}.

(** [handleSaveMapping], read in the state [st] in which the button is
    pressed.  The refresh of the parent's list of saved mappings that
    follows a successful save touches neither this panel's state nor the
    mapping and is left to the parent. *)
Definition handleSaveMapping (props : StoragePanelProps) (st : StoragePanelState)
    : Handler StoragePanelState SaveMappingResponse :=
  let mappingToSave := filterMapping (sp_mapping props) in
  let name := or_else (trim (mappingName st)) "Unnamed mapping" in
  {| call := saveMapping name mappingToSave;
     before := [];
     after o :=
       match o with
       | Resolved saved =>
           [ setSaveResult ("Saved mapping " +:+ dquote +:+ saved_name saved +:+ dquote);
             setSaveClass "success" ]
       | Rejected message =>
           [ setSaveResult (or_else message "Failed to save mapping.");
             setSaveClass "error" ]
       end |}.

(** [handleSaveData].  The template interpolates the response object
    itself, which prints as [[object Object]]. *)
Definition handleSaveData (props : StoragePanelProps)
    : Handler StoragePanelState SaveMappingResponse :=
  let mappingToSave := filterMapping (sp_mapping props) in
  {| call := saveData (sp_fileId props) (sp_hasHeader props) mappingToSave;
     before := [];
     after o :=
       match o with
       | Resolved saved =>
           [ setSaveResult ("Saved records: " +:+ dquote
                            +:+ "[object Object] rows inserted." +:+ dquote);
             setSaveClass "success" ]
       | Rejected message =>
           [ setSaveResult (or_else message "Failed to save data.");
             setSaveClass "error" ]
       end |}.

End UI.

(** ** The validation engine

    The engine (app/services/validator.py, with app/models/schema_def.py
    and app/models/errors.py) is not among the sources at hand: only its
    client is.  The definitions of this module follow the specification,
    sections 3, 4.3 and 6. *)

Module Engine.

(** Modelled from the spec: the kinds of section 3 (the schema definition
    app/models/schema_def.py is missing). *)
Inductive Kind : Type :=
  | KString | KEmail | KDate | KBoolean | KEnum | KIdentifier.

#[global] Instance Kind_eq_dec : EqDecision Kind.
Proof. solve_decision. Defined.

(** Modelled from the spec: SchemaField of section 3 (schema_def.py is
    missing). *)
Record SchemaField : Type :=
  { name : string; required : bool; expected_kind : Kind }.

(** Modelled from the spec: Column of section 3 (csv_loader.py is
    missing). *)
Record Column : Type :=
  { column_name : string; sample_values : list string }.

(** Modelled from the spec: the closed taxonomy of section 6 (errors.py
    is missing). *)
Inductive Reason : Type :=
  | MISSING_REQUIRED_MAPPING
  | UNKNOWN_COLUMN
  | REQUIRED_VALUE_MISSING
  | INVALID_FORMAT
  | INVALID_ENUM_VALUE.

(** Modelled from the spec: ValidationError of section 3 (errors.py is
    missing); [row_index] is absent for a mapping-level error. *)
Record ValidationError : Type :=
  { row_index : option nat;
    field : string;
    reason : Reason;
    message : string }.

(** Modelled from the spec: the result of the Validate contract of
    section 4.3 (validator.py is missing). *)
Record ValidationResult : Type :=
  { is_valid : bool; errors : list ValidationError }.

(** Modelled from the spec: the kind recognizers of section 4.2 and of
    design note 9, named predicates over one string, with the allowed
    set of an enum field and the wording of a message (validator.py is
    missing; the spec fixes none of them). *)
Class Recognizers : Type :=
  { is_email : string → bool;
    is_date : string → bool;
    is_boolean : string → bool;
    enum_values : string → list string;
    describe : Reason → string → string → string }.

(** Modelled from the spec: an empty or blank value, section 4.3
    (validator.py is missing). *)
Definition is_blank (v : string) : bool := String.eqb (trim v) "".

(** Modelled from the spec: the lookup keyed by [expected_kind] of design
    note 9; string and identifier are unconstrained (validator.py is
    missing). *)
Definition recognizes `{Recognizers} (f : SchemaField) (v : string) : bool :=
  match expected_kind f with
  | KString | KIdentifier => true
  | KEmail => is_email v
  | KDate => is_date v
  | KBoolean => is_boolean v
  | KEnum => bool_decide (v ∈ enum_values (name f))
  end.

(** Modelled from the spec: the position of the column a mapping entry
    names among the columns of the file (validator.py is missing). *)
Fixpoint column_index (columns : list Column) (c : string) : option nat :=
  match columns with
  | [] => None
  | col :: rest =>
      if String.eqb (column_name col) c then Some 0%nat
      else S <$> column_index rest c
  end.

(** Modelled from the spec: the outcome of the mapping-level check of one
    field, section 4.3 phase 1 (validator.py is missing). *)
Inductive Resolution : Type :=
  | Unmapped
  | Dangling (c : string)
  | Bound (i : nat).

(** Modelled from the spec: a field is unmapped when the mapping has no
    entry or an empty one for it, dangling when the entry names no column
    of the file, section 4.3 phase 1 (validator.py is missing). *)
Definition resolve (mapping : gmap string string) (columns : list Column)
    (f : SchemaField) : Resolution :=
  match mapping !! name f with
  | None => Unmapped
  | Some c =>
      if truthy c
      then match column_index columns c with
           | Some i => Bound i
           | None => Dangling c
           end
      else Unmapped
  end.

(** Modelled from the spec: one entry of the error list, section 3
    (errors.py is missing). *)
Definition mk_error `{Recognizers} (i : option nat) (f : SchemaField)
    (r : Reason) (v : string) : ValidationError :=
  {| row_index := i; field := name f; reason := r;
     message := describe r (name f) v |}.

(** Modelled from the spec: phase 1 of section 4.3 for one field
    (validator.py is missing). *)
Definition mapping_errors `{Recognizers} (mapping : gmap string string)
    (columns : list Column) (f : SchemaField) : list ValidationError :=
  match resolve mapping columns f with
  | Unmapped =>
      if required f then [mk_error None f MISSING_REQUIRED_MAPPING ""] else []
  | Dangling c => [mk_error None f UNKNOWN_COLUMN c]
  | Bound _ => []
  end.

(** Modelled from the spec: a missing cell of a ragged row is an empty
    value, section 4.3 (validator.py is missing). *)
Definition cell (row : list string) (i : nat) : string :=
  default "" (row !! i).

(** Modelled from the spec: the row-level check of one cell, section 4.3
    phase 2 (validator.py is missing). *)
Definition cell_violation `{Recognizers} (f : SchemaField) (v : string)
    : option Reason :=
  if is_blank v
  then (if required f then Some REQUIRED_VALUE_MISSING else None)
  else if recognizes f v then None
  else match expected_kind f with
       | KEnum => Some INVALID_ENUM_VALUE
       | _ => Some INVALID_FORMAT
       end.

(** Modelled from the spec: the errors of one field in one row; a field
    that failed its mapping-level check is not looked at (validator.py is
    missing). *)
Definition field_row_errors `{Recognizers} (mapping : gmap string string)
    (columns : list Column) (i : nat) (row : list string) (f : SchemaField)
    : list ValidationError :=
  match resolve mapping columns f with
  | Bound j =>
      match cell_violation f (cell row j) with
      | Some r => [mk_error (Some i) f r (cell row j)]
      | None => []
      end
  | _ => []
  end.

(** Modelled from the spec: the errors of one row, over every field of
    the schema in its order, section 4.3 phase 2 (validator.py is
    missing). *)
Definition row_errors `{Recognizers} (mapping : gmap string string)
    (columns : list Column) (schema : list SchemaField) (i : nat)
    (row : list string) : list ValidationError :=
  flat_map (field_row_errors mapping columns i row) schema.

(** Modelled from the spec: phase 2 of section 4.3 over the data rows,
    numbered from [i] (validator.py is missing). *)
Fixpoint rows_errors `{Recognizers} (mapping : gmap string string)
    (columns : list Column) (schema : list SchemaField) (i : nat)
    (rows : list (list string)) : list ValidationError :=
  match rows with
  | [] => []
  | row :: rest =>
      (row_errors mapping columns schema i row
       ++ rows_errors mapping columns schema (S i) rest)%list
  end.

(** Modelled from the spec: [validate] of section 4.3 (validator.py is
    missing): the mapping-level findings of every field, then the
    row-level findings of every row, and [is_valid] says that there is
    none.  The single structural error that section 7 asks for on an
    empty column list or an empty schema has no code in the closed
    taxonomy and is not modelled: what is stated of every finding below
    is stated for a file that has columns and a schema that has
    fields. *)
Definition validate `{Recognizers} (mapping : gmap string string)
    (columns : list Column) (rows : list (list string))
    (schema : list SchemaField) : ValidationResult :=
  let found :=
    (flat_map (mapping_errors mapping columns) schema
     ++ rows_errors mapping columns schema 0 rows)%list in
  {| is_valid := match found with [] => true | _ => false end;
     errors := found |}.







(** Modelled from the spec: one instance of the recognizers, used in the
    examples only: an email contains [@] and, after it, a dot
    (section 4.2: a domain-like suffix); a boolean belongs to the
    vocabulary true/false/1/0/yes/no; a date has the form dddd-dd-dd; the
    enum field [status] allows [active] and [inactive] (validator.py is
    missing). *)
Fixpoint after_char (c : ascii) (s : string) : option string :=
  match s with
  | EmptyString => None
  | String c' s' => if Ascii.eqb c' c then Some s' else after_char c s'
  end.

(** Modelled from the spec: the email recognizer of the sample instance,
    section 4.2 (validator.py is missing). *)
Definition email_shaped (v : string) : bool :=
  match after_char "@"%char v with
  | Some domain =>
      match after_char "."%char domain with
      | Some _ => true
      | None => false
      end
  | None => false
  end.

(** Modelled from the spec: a decimal digit, for the date recognizer of
    the sample instance (validator.py is missing). *)
Definition is_digit (c : ascii) : bool :=
  match Ascii.is_nat c with Some _ => true | None => false end.

(** Modelled from the spec: the date recognizer of the sample instance,
    section 4.2 (validator.py is missing). *)
Definition date_shaped (v : string) : bool :=
  match v with
  | String y1 (String y2 (String y3 (String y4 (String "-"
      (String m1 (String m2 (String "-"
        (String d1 (String d2 EmptyString))))))))) =>
      forallb is_digit [y1; y2; y3; y4; m1; m2; d1; d2]
  | _ => false
  end.

(** Modelled from the spec: the sample instance (validator.py is
    missing). *)
Definition sample_recognizers : Recognizers :=
  {| is_email := email_shaped;
     is_date := date_shaped;
     is_boolean v := bool_decide (v ∈ ["true"; "false"; "1"; "0"; "yes"; "no"]);
     enum_values f :=
       if String.eqb f "status" then ["active"; "inactive"] else [];
     describe r f v :=
       match r with
       | MISSING_REQUIRED_MAPPING => "required field " +:+ f +:+ " is not mapped"
       | UNKNOWN_COLUMN => "field " +:+ f +:+ ": unknown column " +:+ v
       | REQUIRED_VALUE_MISSING => "field " +:+ f +:+ ": value is missing"
       | INVALID_FORMAT => "field " +:+ f +:+ ": invalid value " +:+ v
       | INVALID_ENUM_VALUE => "field " +:+ f +:+ ": value not allowed " +:+ v
       end |}.

End Engine.

(** ** Vocabulary of the statements *)

(** [sent] holds exactly the entries of [m] whose value is neither
    [null] (or [undefined]) nor the empty string. *)
Definition exactly_the_mapped_entries (m sent : gmap string jsval) : Prop :=
  ∀ k v, sent !! k = Some v ↔
         m !! k = Some v ∧ v ≠ JNull ∧ v ≠ JUndefined ∧ v ≠ JString "".

(** The parts of the session state other than the mapping. *)
Definition same_session (st st' : UI.AppState) : Prop :=
  UI.schema st' = UI.schema st
  ∧ UI.savedMappings st' = UI.savedMappings st
  ∧ UI.previewRows st' = UI.previewRows st
  ∧ UI.currentFileId st' = UI.currentFileId st
  ∧ UI.currentHasHeader st' = UI.currentHasHeader st
  ∧ UI.csvColumns st' = UI.csvColumns st
  ∧ UI.statusMessage st' = UI.statusMessage st.

(** The last suggestion of the list that passes the test of the loop and
    names the schema field [f]. *)
Definition last_applied (l : list UI.Suggestion) (f : string)
    : option UI.Suggestion :=
  last (List.filter
          (λ s, UI.auto_applies s && String.eqb (UI.schema_field s) f) l).

(** The mapping and the status line after a settled auto-suggest run. *)
Definition after_auto_suggest (fileId : string) (hasHeader : bool)
    (data : UI.SuggestMappingResponse) (st : UI.AppState) : UI.AppState :=
  UI.run_handler (UI.handleAutoSuggest fileId hasHeader) (λ _, Resolved data) st.

(** The file of [n] rows whose only cell is empty. *)
Definition blank_rows (n : nat) : list (list string) := replicate n [""].

Section findings.
Context `{Engine.Recognizers}.
Variables (mapping : gmap string string) (columns : list Engine.Column)
          (schema : list Engine.SchemaField).

(** The finding the model records for field [f] in row [i]. *)
Definition finding (i : nat) (row : list string) (f : Engine.SchemaField)
    (j : nat) (r : Engine.Reason) : Engine.ValidationError :=
  Engine.mk_error (Some i) f r (Engine.cell row j).

(** One field at fault: [f] is bound to column [j], its cell is invalid
    in every row, and no other field has a finding of either level. *)
Record one_field_at_fault (rows : list (list string))
    (f : Engine.SchemaField) (j : nat) : Prop :=
  { fault_nodup : NoDup schema;
    fault_field : f ∈ schema;
    fault_bound : Engine.resolve mapping columns f = Engine.Bound j;
    fault_mapping_ok :
      ∀ g, g ∈ schema → Engine.mapping_errors mapping columns g = [];
    fault_every_row :
      ∀ row, row ∈ rows →
             is_Some (Engine.cell_violation f (Engine.cell row j));
    fault_others_ok :
      ∀ row g j', row ∈ rows → g ∈ schema → g ≠ f →
                  Engine.resolve mapping columns g = Engine.Bound j' →
                  Engine.cell_violation g (Engine.cell row j') = None }.

End findings.

(** ** More of the client *)

(** *** ui/src/services/api.ts: the addresses of the GET calls *)

Module Api.

(** The characters [encodeURIComponent] leaves as they are: letters,
    digits and [- _ . ! ~ * ' ( )]. *)
Definition is_unreserved (c : ascii) : bool :=
  let n := N_of_ascii c in
  ((65 <=? n) && (n <=? 90) || (97 <=? n) && (n <=? 122)
   || (48 <=? n) && (n <=? 57))%N
  || bool_decide (c ∈ ["-"; "_"; "."; "!"; "~"; "*"; "'"; "("; ")"]%char).

Definition hex_digit (n : N) : ascii :=
  ascii_of_N (if (n <? 10)%N then 48 + n else 55 + n).

(** One escaped octet, [%XY] with upper-case digits. *)
Definition percent (octet : N) : string :=
  String "%" (String (hex_digit (octet / 16))
                (String (hex_digit (octet mod 16)) EmptyString)).

(** The escape of one code unit below 256: itself when unreserved, else
    the octets of its UTF-8 form, one below 128 and two from 128 on. *)
Definition encode_unit (c : ascii) : string :=
  let n := N_of_ascii c in
  if is_unreserved c then String c EmptyString
  else if (n <? 128)%N then percent n
  else percent (192 + n / 64) +:+ percent (128 + n mod 64).

Fixpoint encodeURIComponent (s : string) : string :=
  match s with
  | EmptyString => EmptyString
  | String c s' => encode_unit c +:+ encodeURIComponent s'
  end.

(** [${hasHeader}] in a template literal. *)
Definition bool_text (b : bool) : string := if b then "true" else "false".

Definition fetchColumns_url (fileId : string) (hasHeader : bool) : string :=
  "/api/columns?file_id=" +:+ encodeURIComponent fileId
  +:+ "&has_header=" +:+ bool_text hasHeader.

Definition suggestMapping_url (fileId : string) (hasHeader : bool) : string :=
  "/api/suggest-mapping?file_id=" +:+ encodeURIComponent fileId
  +:+ "&has_header=" +:+ bool_text hasHeader.

Definition fetchPreview_url (fileId : string) (hasHeader : bool) : string :=
  "/api/preview?file_id=" +:+ encodeURIComponent fileId
  +:+ "&has_header=" +:+ bool_text hasHeader +:+ "&limit=8".

(** The id is interpolated as it is. *)
Definition fetchSingleMapping_url (id : string) : string :=
  "/api/mappings/" +:+ id.

End Api.

(** *** ui/src/App.tsx: the effect on a new file and the other handlers *)

Module Session.

Record ColumnsResponse : Type := { columns : list UI.CsvColumn }.

Record PreviewResponse : Type := { rows : list (list string) }.

Record SavedMappingsResponse : Type := { items : list UI.SavedMappingItem }.

(** What the backend answers to the calls of the session. *)
Record Backend : Type :=
  { answer_columns : string → bool → Outcome ColumnsResponse;
    answer_preview : string → bool → Outcome PreviewResponse;
    answer_suggest : string → bool → Outcome UI.SuggestMappingResponse;
    answer_mappings : Outcome SavedMappingsResponse }.

Definition setCsvColumns (v : list UI.CsvColumn) (st : UI.AppState)
    : UI.AppState :=
  {| UI.schema := UI.schema st; UI.savedMappings := UI.savedMappings st;
     UI.previewRows := UI.previewRows st;
     UI.currentFileId := UI.currentFileId st;
     UI.currentHasHeader := UI.currentHasHeader st; UI.csvColumns := v;
     UI.mapping := UI.mapping st; UI.statusMessage := UI.statusMessage st |}.

Definition setPreviewRows (v : list (list string)) (st : UI.AppState)
    : UI.AppState :=
  {| UI.schema := UI.schema st; UI.savedMappings := UI.savedMappings st;
     UI.previewRows := v; UI.currentFileId := UI.currentFileId st;
     UI.currentHasHeader := UI.currentHasHeader st;
     UI.csvColumns := UI.csvColumns st;
     UI.mapping := UI.mapping st; UI.statusMessage := UI.statusMessage st |}.

Definition setSavedMappings (v : list UI.SavedMappingItem) (st : UI.AppState)
    : UI.AppState :=
  {| UI.schema := UI.schema st; UI.savedMappings := v;
     UI.previewRows := UI.previewRows st;
     UI.currentFileId := UI.currentFileId st;
     UI.currentHasHeader := UI.currentHasHeader st;
     UI.csvColumns := UI.csvColumns st;
     UI.mapping := UI.mapping st; UI.statusMessage := UI.statusMessage st |}.

(** [loadSavedMappings]: a failure is logged and changes nothing. *)
Definition loadSavedMappings (b : Backend) : list (UI.AppState → UI.AppState) :=
  match answer_mappings b with
  | Resolved data => [ setSavedMappings (items data) ]
  | Rejected _ => []
  end.

(** The updates of a whole [handleAutoSuggest] run against [b]. *)
Definition autoSuggest (b : Backend) (fileId : string) (hasHeader : bool)
    : list (UI.AppState → UI.AppState) :=
  let h := UI.handleAutoSuggest fileId hasHeader in
  UI.before h ++ UI.after h (answer_suggest b fileId hasHeader).

(** [initFile]: columns, then preview rows, then the auto-suggest run;
    the first of the two fetches that fails ends it (the [catch] only
    logs). *)
Definition initFile (b : Backend) (fileId : string) (hasHeader : bool)
    : list (UI.AppState → UI.AppState) :=
  match answer_columns b fileId hasHeader with
  | Rejected _ => []
  | Resolved colData =>
      setCsvColumns (columns colData)
      :: match answer_preview b fileId hasHeader with
         | Rejected _ => []
         | Resolved previewData =>
             setPreviewRows (rows previewData)
             :: autoSuggest b fileId hasHeader
         end
  end.

(** [Boolean(currentFileId)] and [!currentFileId]: [null] and the empty
    string are both falsy. *)
Definition hasUploadedFile (st : UI.AppState) : bool :=
  match UI.currentFileId st with
  | Some id => truthy id
  | None => false
  end.

(** The effect on [[currentFileId, currentHasHeader]], run in [st]. *)
Definition file_effect (b : Backend) (st : UI.AppState)
    : list (UI.AppState → UI.AppState) :=
  match UI.currentFileId st with
  | Some id =>
      if truthy id then initFile b id (UI.currentHasHeader st) else []
  | None => []
  end.

(** [triggerAutoSuggest], run in [st]. *)
Definition triggerAutoSuggest (b : Backend) (st : UI.AppState)
    : list (UI.AppState → UI.AppState) :=
  match UI.currentFileId st with
  | Some id =>
      if truthy id then autoSuggest b id (UI.currentHasHeader st) else []
  | None => []
  end.

(** [hasUploadedFile && schema]: the condition under which the action
    panel, the storage panel and the mapping table are on the screen. *)
Definition panels_shown (st : UI.AppState) : bool :=
  hasUploadedFile st && bool_decide (is_Some (UI.schema st)).

End Session.

(** *** MappingTable: what a select displays *)

(** The option a controlled [<select value=...>] displays: the option
    whose value is the [value] prop and, when no option has that value,
    the first option. *)
Definition shown_option (row : UI.MappingRow) : string :=
  if bool_decide (UI.select_value row ∈ UI.select_options row)
  then UI.select_value row
  else default "" (head (UI.select_options row)).

(** The option the select of the schema field [f] displays, given the
    columns of the file and the mapping. *)
Definition shown_for (csvColumns : list UI.CsvColumn)
    (mapping : gmap string jsval) (f : string) : string :=
  let v := UI.selected mapping f in
  if bool_decide (v ∈ "" :: (UI.column_name <$> csvColumns)) then v else "".

(** *** ActionPanel: what is on the screen *)

(** [{status === 'success' && ...}] *)
Definition ActionPanel_success_banner (st : UI.ActionPanelState) : bool :=
  match UI.status st with UI.success => true | _ => false end.

(** [disabled={status === 'validating'}] *)
Definition ActionPanel_button_disabled (st : UI.ActionPanelState) : bool :=
  match UI.status st with UI.validating => true | _ => false end.

(** *** ui/src/components/StoragePanel.tsx: loading a saved mapping *)

Module Storage.

Record SingleMappingResponse : Type :=
  { single_id : string;
    single_name : string;
    single_mapping : gmap string jsval }.

Definition setSelectedId (v : string) (st : UI.StoragePanelState)
    : UI.StoragePanelState :=
  {| UI.mappingName := UI.mappingName st; UI.saveResult := UI.saveResult st;
     UI.saveClass := UI.saveClass st; UI.selectedId := v |}.

(** The address [handleLoad] fetches, if it fetches: [if (!id) return]. *)
Definition handleLoad_call (id : string) : option string :=
  if truthy id then Some (Api.fetchSingleMapping_url id) else None.

(** [handleLoad]: the updates of the panel and, through
    [onApplyMapping], those of the session.  [data.mapping || {}] is
    [data.mapping] itself, an object being truthy. *)
Definition handleLoad (id : string)
    (answer : string → Outcome SingleMappingResponse)
    : list (UI.StoragePanelState → UI.StoragePanelState)
      * list (UI.AppState → UI.AppState) :=
  ([ setSelectedId id ],
   if truthy id
   then match answer id with
        | Resolved data => [ UI.setMapping (λ _, single_mapping data) ]
        | Rejected _ => []
        end
   else []).

(** The values of the options of the select: the placeholder, then
    [String(item.id)] for every saved mapping. *)
Definition select_values (savedMappings : list UI.SavedMappingItem)
    : list string :=
  "" :: (UI.item_id <$> savedMappings).

End Storage.

(** *** ui/src/components/UploadSection.tsx *)

Module Upload.

Record UploadResponse : Type := { file_id : string; has_header : bool }.

Record UploadState : Type :=
  { headerStatus : string; status : string; statusClass : string }.

Definition setHeaderStatus (v : string) (st : UploadState) : UploadState :=
  {| headerStatus := v; status := status st; statusClass := statusClass st |}.

Definition setStatus (v : string) (st : UploadState) : UploadState :=
  {| headerStatus := headerStatus st; status := v;
     statusClass := statusClass st |}.

Definition setStatusClass (v : string) (st : UploadState) : UploadState :=
  {| headerStatus := headerStatus st; status := status st; statusClass := v |}.

(** [handleSubmit]: with no file chosen nothing happens; otherwise the
    file is uploaded and, on success, [onUploadComplete] and then
    [onRefreshMappings] are called on the session. *)
Definition handleSubmit (fileChosen : bool) (answer : Outcome UploadResponse)
    (b : Session.Backend)
    : list (UploadState → UploadState) * list (UI.AppState → UI.AppState) :=
  if fileChosen
  then match answer with
       | Resolved data =>
           ([ setHeaderStatus
                (if has_header data then "File has header row."
                 else "No header row is detected. Mapping will be suggested based on the column content.");
              setStatus ("Uploaded as file_id=" +:+ file_id data);
              setStatusClass "success" ],
            UI.handleUploadComplete (file_id data) (has_header data)
            ++ Session.loadSavedMappings b)
       | Rejected message =>
           ([ setHeaderStatus "";
              setStatus (or_else message "Upload failed.");
              setStatusClass "error" ],
            [])
       end
  else ([], []).

End Upload.

(** *** Reading an address *)

(** Whether the character [x] occurs in [s]. *)
Fixpoint occurs (x : ascii) (s : string) : bool :=
  match s with
  | EmptyString => false
  | String c s' => Ascii.eqb c x || occurs x s'
  end.

(** [s.split(sep)] for a one-character separator. *)
Fixpoint split_on (sep : ascii) (s : string) : list string :=
  match s with
  | EmptyString => [EmptyString]
  | String c s' =>
      if Ascii.eqb c sep then EmptyString :: split_on sep s'
      else match split_on sep s' with
           | piece :: pieces => String c piece :: pieces
           | [] => [String c EmptyString]
           end
  end.

(** The parameters of the query of an address, each as the list of the
    pieces around its [=] signs. *)
Definition query_params (url : string) : list (list string) :=
  match split_on "?" url with
  | [_; query] => split_on "=" <$> split_on "&" query
  | _ => []
  end.

(** The characters that structure an address. *)
Definition delimiters : list ascii :=
  ["&"; "="; "?"; "#"; "/"; "+"; " "; ":"; ";"; ","; "@"; "$"]%char.

(** The characters an escaped component is made of. *)
Definition escaped_char (c : ascii) : bool :=
  Api.is_unreserved c || Ascii.eqb c "%"
  || bool_decide (c ∈ ["0"; "1"; "2"; "3"; "4"; "5"; "6"; "7"; "8"; "9";
                        "A"; "B"; "C"; "D"; "E"; "F"]%char).

Fixpoint string_forall (p : ascii → bool) (s : string) : bool :=
  match s with
  | EmptyString => true
  | String c s' => p c && string_forall p s'
  end.

(** The value of an upper-case hexadecimal digit. *)
Definition hex_value (c : ascii) : option N :=
  let n := N_of_ascii c in
  if ((48 <=? n) && (n <=? 57))%N then Some (n - 48)%N
  else if ((65 <=? n) && (n <=? 70))%N then Some (n - 55)%N
  else None.

Definition octet_value (h1 h2 : ascii) : option N :=
  match hex_value h1, hex_value h2 with
  | Some a, Some b => Some (16 * a + b)%N
  | _, _ => None
  end.

(** Reading back what [Api.encodeURIComponent] writes: an escape of one
    octet below 128, an escape of two octets, or a character that stands
    for itself. *)
Fixpoint unescape (s : string) : option string :=
  match s with
  | EmptyString => Some EmptyString
  | String c rest =>
      if Ascii.eqb c "%" then
        match rest with
        | String h1 (String h2 rest2) =>
            match octet_value h1 h2 with
            | Some n =>
                if (n <? 128)%N then String (ascii_of_N n) <$> unescape rest2
                else
                  match rest2 with
                  | String p (String h3 (String h4 rest3)) =>
                      if Ascii.eqb p "%" then
                        match octet_value h3 h4 with
                        | Some n2 =>
                            String (ascii_of_N ((n - 192) * 64 + (n2 - 128)))
                              <$> unescape rest3
                        | None => None
                        end
                      else None
                  | _ => None
                  end
            | None => None
            end
        | _ => None
        end
      else String c <$> unescape rest
  end.

(** * Properties *)

(** ** The definitions at work *)

Example filterMapping_example :
  filterMapping
    {[ "email" := JString "E-mail"; "website" := JString "";
       "status" := JNull; "first_name" := JString "First" ]}
  = {[ "email" := JString "E-mail"; "first_name" := JString "First" ]}.
Proof. by vm_compute. Qed.

Example trim_example :
  trim "  Customers 2024 " = "Customers 2024"
  ∧ or_else (trim "   ") "Unnamed mapping" = "Unnamed mapping".
Proof. by vm_compute. Qed.

Example auto_loop_example :
  UI.auto_loop
    [ {| UI.schema_field := "email"; UI.csv_column := "E-mail";
         UI.confidence := 9 # 10 |};
      {| UI.schema_field := "website"; UI.csv_column := "Site";
         UI.confidence := 49 # 100 |};
      {| UI.schema_field := "status"; UI.csv_column := "State";
         UI.confidence := 1 # 2 |};
      {| UI.schema_field := ""; UI.csv_column := "Other";
         UI.confidence := 1 |} ]
  = ({[ "email" := JString "E-mail"; "status" := JString "State" ]}, 2%nat).
Proof. by vm_compute. Qed.

Example ValidationReport_example :
  UI.ValidationReport ["a"; "b"]
  = {| UI.header_total := 2; UI.header_plural := true;
       UI.items := ["a"; "b"]; UI.more := None |}.
Proof. reflexivity. Qed.

(** The required-but-unmapped example of section 8: one mapping-level
    finding and no row-level one, although rows exist. *)
Example validate_unmapped_required_example :
  Engine.errors
    (@Engine.validate Engine.sample_recognizers ∅
       [ {| Engine.column_name := "E-mail"; Engine.sample_values := [] |} ]
       [ ["a@b.com"]; ["nope"] ]
       [ {| Engine.name := "email"; Engine.required := true;
            Engine.expected_kind := Engine.KEmail |} ])
  = [ {| Engine.row_index := None; Engine.field := "email";
         Engine.reason := Engine.MISSING_REQUIRED_MAPPING;
         Engine.message := "required field email is not mapped" |} ].
Proof. by vm_compute. Qed.

(** ** Lemmas on objects *)

Lemma truthy_true s : truthy s = true ↔ s ≠ "".
Proof.
  unfold truthy. rewrite negb_true_iff. split.
  - intros H ->. by rewrite String.eqb_refl in H.
  - intros H. by apply String.eqb_neq.
Qed.

Lemma is_mapped_spec k v :
  is_mapped (k, v) = true ↔ v ≠ JNull ∧ v ≠ JUndefined ∧ v ≠ JString "".
Proof.
  unfold is_mapped, strict_ne; simpl. destruct v as [| |s]; simpl.
  - split; [done|]. by intros [? _].
  - split; [done|]. by intros (_ & ? & _).
  - rewrite negb_true_iff, bool_decide_eq_false. split.
    + intros Hne. by repeat split.
    + by intros (_ & _ & Hne).
Qed.

Lemma fromEntries_foldl_lookup (l : list (string * jsval)) (acc : gmap string jsval) k v :
  NoDup (l.*1) →
  (foldl (λ acc kv, <[kv.1 := kv.2]> acc) acc l) !! k = Some v ↔
  (k, v) ∈ l ∨ ((k ∉ l.*1) ∧ acc !! k = Some v).
Proof.
  revert acc. induction l as [|[k' v'] l IH]; intros acc Hnd; simpl.
  - rewrite elem_of_nil. split.
    + intros Hacc. right. split; [apply not_elem_of_nil|done].
    + by intros [[]|[_ Hacc]].
  - apply NoDup_cons in Hnd as [Hk' Hnd]. rewrite (IH _ Hnd).
    rewrite elem_of_cons, not_elem_of_cons. simpl.
    destruct (decide (k' = k)) as [->|Hne].
    + rewrite lookup_insert_eq. split.
      * intros [Hin|[Hnin Heq]]; [by left; right|].
        left; left. congruence.
      * intros [[Heq|Hin]|[[Hne _] _]]; [|by left|done].
        right. split; [done|]. congruence.
    + rewrite lookup_insert_ne by done. split.
      * intros [Hin|[Hnin Heq]]; [by left; right|]. right.
        split; [split|]; [congruence|done|done].
      * intros [[Heq|Hin]|[[_ Hnin] Hacc]]; [congruence|by left|by right].
Qed.

Lemma fromEntries_lookup (l : list (string * jsval)) k v :
  NoDup (l.*1) → Object_fromEntries l !! k = Some v ↔ (k, v) ∈ l.
Proof.
  intros Hnd. unfold Object_fromEntries.
  rewrite fromEntries_foldl_lookup by done. rewrite lookup_empty. split.
  - by intros [Hin|[_ Hnone]].
  - by left.
Qed.

Lemma NoDup_fst_filter {A B} (p : A * B → bool) (l : list (A * B)) :
  NoDup (l.*1) → NoDup ((List.filter p l).*1).
Proof.
  induction l as [|x l IH]; simpl; [done|].
  intros [Hx Hnd]%NoDup_cons. destruct (p x); simpl; [|by apply IH].
  apply NoDup_cons. split; [|by apply IH].
  intros Hin. apply Hx. apply list_elem_of_fmap in Hin as [y [-> Hy]].
  apply list_elem_of_fmap. exists y. split; [done|].
  apply list_elem_of_In in Hy. apply filter_In in Hy as [Hy _].
  by apply list_elem_of_In.
Qed.

(** The filtered object holds exactly the entries that pass the callback. *)
Lemma filterMapping_lookup (mapping : gmap string jsval) k v :
  filterMapping mapping !! k = Some v ↔
  mapping !! k = Some v ∧ is_mapped (k, v) = true.
Proof.
  unfold filterMapping, Object_entries.
  rewrite fromEntries_lookup
    by (apply NoDup_fst_filter, NoDup_fst_map_to_list).
  rewrite list_elem_of_In, filter_In, <- list_elem_of_In.
  by rewrite elem_of_map_to_list.
Qed.

(** The imperative pipeline computes the declarative filter of the map. *)
Lemma filterMapping_filter (mapping : gmap string jsval) :
  filterMapping mapping = filter (λ kv, is_mapped kv = true) mapping.
Proof.
  apply map_eq. intros k. apply option_eq. intros v.
  rewrite filterMapping_lookup, map_lookup_filter_Some. done.
Qed.

(** ** Sending a mapping: ActionPanel and StoragePanel *)

Lemma filterMapping_exact (m : gmap string jsval) :
  exactly_the_mapped_entries m (filterMapping m).
Proof.
  intros k v. by rewrite filterMapping_lookup, is_mapped_spec.
Qed.

Lemma filterMapping_no_empty (m : gmap string jsval) k :
  m !! k = Some (JString "") → filterMapping m !! k = None.
Proof.
  intros Hk. destruct (filterMapping m !! k) as [v|] eqn:Hv; [|done].
  apply filterMapping_exact in Hv as (Hm & _ & _ & Hne). congruence.
Qed.

(** C6: the mapping object that handleValidate sends to validate-mapping,
    handleSaveMapping to mapping save and handleSaveData to data ingest
    holds exactly the entries of the current mapping whose value is
    non-null and non-empty; a field set to the empty string is left out
    of the object, not sent as an empty string. *)
Theorem C6_sent_mapping_omits_unmapped
    (m : gmap string jsval) (fileId : string) (hasHeader : bool)
    (st : UI.StoragePanelState) :
  let ap := {| UI.ap_fileId := fileId; UI.ap_hasHeader := hasHeader;
               UI.ap_mapping := m |} in
  let sp := {| UI.sp_fileId := fileId; UI.sp_hasHeader := hasHeader;
               UI.sp_mapping := m |} in
  ∃ sent,
    UI.call (UI.handleValidate ap) = UI.validateMapping fileId hasHeader sent
    ∧ UI.sent_mapping (UI.call (UI.handleSaveMapping sp st)) = Some sent
    ∧ UI.call (UI.handleSaveData sp) = UI.saveData fileId hasHeader sent
    ∧ exactly_the_mapped_entries m sent
    ∧ ∀ k, m !! k = Some (JString "") → sent !! k = None.
Proof.
  intros ap sp. exists (filterMapping m).
  split; [reflexivity|]. split; [reflexivity|]. split; [reflexivity|].
  split; [apply filterMapping_exact|apply filterMapping_no_empty].
Qed.

(** ** Editing the mapping: App *)

(** C8: updateMapping(f, c) yields a mapping that maps f to c and agrees
    with the current mapping on every other schema field: no other entry
    is added, removed or changed; this is the callback every row of
    MappingTable invokes with its own field name. *)
Theorem C8_updateMapping_frame (st : UI.AppState) (f c : string) :
  let st' := run_updates (UI.updateMapping f c) st in
  UI.mapping st' !! f = Some (JString c)
  ∧ (∀ g, g ≠ f → UI.mapping st' !! g = UI.mapping st !! g)
  ∧ dom (UI.mapping st') = {[f]} ∪ dom (UI.mapping st)
  ∧ same_session st st'
  ∧ ∀ schema columns row v,
      row ∈ UI.MappingTable schema columns (UI.mapping st) UI.updateMapping →
      UI.onChange row v = UI.updateMapping (UI.row_label row) v.
Proof.
  simpl. repeat split.
  - apply lookup_insert_eq.
  - intros g Hg. by apply lookup_insert_ne.
  - apply dom_insert_L.
  - intros schema columns row v Hrow. unfold UI.MappingTable in Hrow.
    apply list_elem_of_fmap in Hrow as [field [-> _]]. done.
Qed.

(** C9: handleUploadComplete empties the mapping before it records the
    new file id, so no entry of the mapping edited for the previous file
    is left in the new session; what the auto-suggest run then stores is
    built from the suggestions alone. *)
Theorem C9_upload_resets_mapping (st : UI.AppState) (fileId : string)
    (hasHeader : bool) :
  let st' := run_updates (UI.handleUploadComplete fileId hasHeader) st in
  (∀ k, UI.mapping st' !! k = None)
  ∧ UI.currentFileId st' = Some fileId
  ∧ UI.currentHasHeader st' = hasHeader
  ∧ (∃ pre post,
       UI.handleUploadComplete fileId hasHeader
       = pre ++ UI.setCurrentFileId (Some fileId) :: post
       ∧ UI.mapping (run_updates pre st) = ∅
       ∧ UI.currentFileId (run_updates pre st) = UI.currentFileId st)
  ∧ ∀ data,
      UI.mapping
        (run_updates
           (UI.after (UI.handleAutoSuggest fileId hasHeader) (Resolved data))
           st')
      = (UI.auto_loop (UI.suggestions data)).1.
Proof.
  simpl. repeat split.
  - exists [UI.setMapping (λ _, ∅)],
      [UI.setCurrentHasHeader hasHeader]. done.
  - intros data. destruct (UI.auto_loop (UI.suggestions data)); done.
Qed.

(** ** Saving under a name: StoragePanel *)

(** C10: when the entered mapping name trims to the empty string, the
    save request is still sent and carries the literal name
    [Unnamed mapping], never an empty name. *)
Theorem C10_blank_name_defaults (props : UI.StoragePanelProps)
    (st : UI.StoragePanelState) :
  trim (UI.mappingName st) = "" →
  UI.call (UI.handleSaveMapping props st)
  = UI.saveMapping "Unnamed mapping" (filterMapping (UI.sp_mapping props)).
Proof.
  intros Hname. unfold UI.handleSaveMapping; simpl. by rewrite Hname.
Qed.

Lemma C10_blank_name_defaults_witness :
  let st := {| UI.mappingName := "  " +:+ String "009"%char "";
               UI.saveResult := ""; UI.saveClass := ""; UI.selectedId := "" |} in
  let props := {| UI.sp_fileId := "f1"; UI.sp_hasHeader := true;
                  UI.sp_mapping := {[ "email" := JString "E-mail" ]} |} in
  trim (UI.mappingName st) = ""
  ∧ UI.call (UI.handleSaveMapping props st)
    = UI.saveMapping "Unnamed mapping" (filterMapping (UI.sp_mapping props)).
Proof.
  intros st props. split; [reflexivity|].
  apply (C10_blank_name_defaults props st). reflexivity.
Defined.

(** ** Auto-applying suggestions: App *)


Lemma assign_ordinary (o : gmap string jsval) (k : string) (v : jsval) :
  k ≠ "__proto__" → assign o k v = <[k := v]> o.
Proof.
  intros Hk. unfold assign. apply String.eqb_neq in Hk. by rewrite Hk.
Qed.

Lemma assign_lookup_ne (o : gmap string jsval) (k f : string) (v : jsval) :
  k ≠ f → assign o k v !! f = o !! f.
Proof.
  intros Hk. unfold assign.
  destruct (String.eqb k "__proto__"), (o !! k);
    by rewrite ?lookup_insert_ne.
Qed.

Lemma assign_proto_None (o : gmap string jsval) (k : string) (v : jsval) :
  o !! "__proto__" = None → assign o k v !! "__proto__" = None.
Proof.
  intros Ho. destruct (decide (k = "__proto__")) as [->|Hk].
  - unfold assign. by rewrite Ho.
  - by rewrite assign_lookup_ne.
Qed.

Lemma assign_size (o : gmap string jsval) (k : string) (v : jsval) :
  (size (assign o k v) ≤ S (size o))%nat.
Proof.
  unfold assign. destruct (String.eqb k "__proto__"), (o !! k) eqn:Hk;
    rewrite ?map_size_insert, ?Hk; simpl; lia.
Qed.

Lemma auto_step_fst (acc : gmap string jsval * nat) (s : UI.Suggestion) :
  (UI.auto_step acc s).1
  = if UI.auto_applies s
    then assign acc.1 (UI.schema_field s) (JString (UI.csv_column s))
    else acc.1.
Proof. unfold UI.auto_step. by destruct (UI.auto_applies s). Qed.

Lemma auto_loop_from_lookup (l : list UI.Suggestion)
    (acc : gmap string jsval * nat) (f : string) :
  f ≠ "__proto__" →
  (foldl UI.auto_step acc l).1 !! f
  = match last_applied l f with
    | Some s => Some (JString (UI.csv_column s))
    | None => acc.1 !! f
    end.
Proof.
  intros Hproto. induction l as [|s l IH] using rev_ind; [done|].
  rewrite foldl_app; simpl. rewrite auto_step_fst.
  unfold last_applied in *. rewrite List.filter_app; simpl.
  destruct (UI.auto_applies s) eqn:Happ; simpl.
  - destruct (String.eqb (UI.schema_field s) f) eqn:Hf.
    + apply String.eqb_eq in Hf as <-.
      by rewrite last_snoc, assign_ordinary, lookup_insert_eq.
    + apply String.eqb_neq in Hf.
      rewrite app_nil_r, assign_lookup_ne by done. apply IH.
  - rewrite app_nil_r. apply IH.
Qed.

Lemma auto_loop_from_proto (l : list UI.Suggestion)
    (acc : gmap string jsval * nat) :
  acc.1 !! "__proto__" = None →
  (foldl UI.auto_step acc l).1 !! "__proto__" = None.
Proof.
  revert acc. induction l as [|s l IH]; intros acc Hacc; simpl; [done|].
  apply IH. rewrite auto_step_fst.
  destruct (UI.auto_applies s); [by apply assign_proto_None|done].
Qed.

Lemma auto_loop_lookup (l : list UI.Suggestion) (f : string) :
  f ≠ "__proto__" →
  (UI.auto_loop l).1 !! f
  = (λ s, JString (UI.csv_column s)) <$> last_applied l f.
Proof.
  intros Hproto. unfold UI.auto_loop.
  rewrite auto_loop_from_lookup by done; simpl.
  by destruct (last_applied l f).
Qed.

(** The loop never gives the new mapping a key [__proto__]. *)
Lemma auto_loop_proto (l : list UI.Suggestion) :
  (UI.auto_loop l).1 !! "__proto__" = None.
Proof. by apply auto_loop_from_proto. Qed.

Example auto_loop_proto_example :
  UI.auto_loop
    [ {| UI.schema_field := "__proto__"; UI.csv_column := "E-mail";
         UI.confidence := 9 # 10 |};
      {| UI.schema_field := "email"; UI.csv_column := "E-mail";
         UI.confidence := 9 # 10 |} ]
  = ({[ "email" := JString "E-mail" ]}, 2%nat).
Proof. by vm_compute. Qed.

Lemma auto_loop_from_count (l : list UI.Suggestion)
    (acc : gmap string jsval * nat) :
  (foldl UI.auto_step acc l).2
  = (acc.2 + length (List.filter UI.auto_applies l))%nat.
Proof.
  revert acc. induction l as [|s l IH]; intros acc; simpl; [lia|].
  rewrite IH. unfold UI.auto_step.
  destruct (UI.auto_applies s); simpl; lia.
Qed.

Lemma last_applied_is_Some (l : list UI.Suggestion) (f : string) :
  is_Some (last_applied l f) ↔
  ∃ s, s ∈ l ∧ UI.schema_field s = f ∧ UI.auto_applies s = true.
Proof.
  unfold last_applied.
  set (p := λ s, UI.auto_applies s && String.eqb (UI.schema_field s) f).
  split.
  - intros [s Hs]. exists s.
    assert (In s (List.filter p l)) as Hin.
    { apply list_elem_of_In. rewrite last_Some in Hs.
      destruct Hs as [l' ->]. apply elem_of_app. right. by left. }
    apply filter_In in Hin as [Hin Hp]. unfold p in Hp.
    apply andb_true_iff in Hp as [Ha He]. apply String.eqb_eq in He.
    split; [by apply list_elem_of_In|done].
  - intros (s & Hin & Hf & Ha).
    assert (In s (List.filter p l)) as Hs.
    { apply filter_In. split; [by apply list_elem_of_In|].
      unfold p. rewrite Ha; simpl. by apply String.eqb_eq. }
    destruct (List.filter p l) as [|x xs] using rev_ind; [done|].
    rewrite last_snoc. by eexists.
Qed.

Lemma after_auto_suggest_mapping fileId hasHeader data st :
  UI.mapping (after_auto_suggest fileId hasHeader data st)
  = (UI.auto_loop (UI.suggestions data)).1.
Proof.
  unfold after_auto_suggest, UI.run_handler; simpl.
  by destruct (UI.auto_loop (UI.suggestions data)).
Qed.




(** ** The validation engine *)

Lemma flat_map_all_nil {A B : Type} (g : A → list B) (l : list A) :
  (∀ z, z ∈ l → g z = []) → flat_map g l = [].
Proof.
  induction l as [|a l IH]; intros Hg; simpl; [done|].
  rewrite (Hg a) by left. apply IH. intros z Hz. apply Hg. by right.
Qed.

(** In a list without repetition, the findings of the only element that
    has any are all the findings there are. *)
Lemma flat_map_only_one {A B : Type} (g : A → list B) (l : list A) (x : A) :
  NoDup l → x ∈ l → (∀ z, z ∈ l → z ≠ x → g z = []) →
  flat_map g l = g x.
Proof.
  induction l as [|a l IH]; intros Hnd Hx Hg; [by apply elem_of_nil in Hx|].
  apply NoDup_cons in Hnd as [Ha Hnd]. simpl.
  apply elem_of_cons in Hx as [->|Hx].
  - rewrite flat_map_all_nil; [by rewrite app_nil_r|].
    intros z Hz. apply Hg; [by right|]. intros ->. done.
  - rewrite (Hg a); [|by left|by intros ->]. simpl.
    apply IH; [done..|]. intros z Hz. apply Hg. by right.
Qed.

Section validation.
Context `{Engine.Recognizers}.
Variables (mapping : gmap string string) (columns : list Engine.Column)
          (schema : list Engine.SchemaField).

Lemma is_valid_iff (rows : list (list string)) :
  Engine.is_valid (Engine.validate mapping columns rows schema) = true ↔
  Engine.errors (Engine.validate mapping columns rows schema) = [].
Proof.
  unfold Engine.validate; simpl.
  by destruct (flat_map _ schema ++ Engine.rows_errors _ _ _ _ rows).
Qed.

Lemma field_row_errors_finding i row f j r :
  Engine.resolve mapping columns f = Engine.Bound j →
  Engine.cell_violation f (Engine.cell row j) = Some r →
  Engine.field_row_errors mapping columns i row f = [finding i row f j r].
Proof.
  intros Hres Hbad. unfold Engine.field_row_errors. by rewrite Hres, Hbad.
Qed.

Lemma row_errors_complete i row f j r :
  f ∈ schema →
  Engine.resolve mapping columns f = Engine.Bound j →
  Engine.cell_violation f (Engine.cell row j) = Some r →
  finding i row f j r ∈ Engine.row_errors mapping columns schema i row.
Proof.
  intros Hf Hres Hbad. unfold Engine.row_errors.
  apply list_elem_of_In, in_flat_map. exists f.
  split; [by apply list_elem_of_In|].
  rewrite (field_row_errors_finding _ _ _ _ _ Hres Hbad). by left.
Qed.

Lemma rows_errors_complete (rows : list (list string)) i0 i row f j r :
  rows !! i = Some row →
  f ∈ schema →
  Engine.resolve mapping columns f = Engine.Bound j →
  Engine.cell_violation f (Engine.cell row j) = Some r →
  finding (i0 + i) row f j r
    ∈ Engine.rows_errors mapping columns schema i0 rows.
Proof.
  revert i0 i. induction rows as [|row0 rows IH]; intros i0 i Hrow Hf Hres Hbad;
    [done|]. simpl. apply elem_of_app. destruct i as [|i]; simpl in Hrow.
  - left. injection Hrow as ->. rewrite Nat.add_0_r.
    by apply row_errors_complete.
  - right. replace (i0 + S i)%nat with (S i0 + i)%nat by lia.
    by apply IH.
Qed.

Lemma rows_errors_length (rows : list (list string)) i0 :
  length (Engine.rows_errors mapping columns schema i0 rows)
  = sum_list
      ((λ row, length (Engine.row_errors mapping columns schema 0 row))
         <$> rows).
Proof.
  assert (∀ i row,
    length (Engine.row_errors mapping columns schema i row)
    = length (Engine.row_errors mapping columns schema 0 row)) as Hshift.
  { intros i row. unfold Engine.row_errors.
    induction schema as [|f fs IH]; simpl; [done|].
    rewrite !length_app, IH. f_equal.
    unfold Engine.field_row_errors.
    destruct (Engine.resolve mapping columns f); try done.
    by destruct (Engine.cell_violation f _). }
  revert i0. induction rows as [|row rows IH]; intros i0; simpl; [done|].
  by rewrite length_app, IH, Hshift.
Qed.

Lemma row_errors_one_field rows f j i row r :
  one_field_at_fault mapping columns schema rows f j → row ∈ rows →
  Engine.cell_violation f (Engine.cell row j) = Some r →
  Engine.row_errors mapping columns schema i row = [finding i row f j r].
Proof.
  intros [Hnd Hf Hres _ _ Hok] Hrow Hbad. unfold Engine.row_errors.
  rewrite (flat_map_only_one _ _ f Hnd Hf).
  - by apply field_row_errors_finding.
  - intros g Hg Hne. unfold Engine.field_row_errors.
    destruct (Engine.resolve mapping columns g) as [| |j'] eqn:Hg'; try done.
    by rewrite (Hok row g j').
Qed.

Lemma rows_errors_one_field rows f j i0 :
  one_field_at_fault mapping columns schema rows f j →
  length (Engine.rows_errors mapping columns schema i0 rows) = length rows
  ∧ ∀ i row, rows !! i = Some row →
      ∃ r, Engine.cell_violation f (Engine.cell row j) = Some r
           ∧ Engine.rows_errors mapping columns schema i0 rows !! i
             = Some (finding (i0 + i) row f j r).
Proof.
  revert i0. induction rows as [|row0 rows IH]; intros i0 Hfault.
  { split; [done|]. intros i row Hrow. done. }
  assert (one_field_at_fault mapping columns schema rows f j) as Hrest.
  { destruct Hfault as [Hnd Hf Hres Hmap Hbad Hok].
    split; try done.
    - intros row Hrow. apply Hbad. by right.
    - intros row g j' Hrow. apply Hok. by right. }
  destruct (fault_every_row _ _ _ _ _ _ Hfault row0) as [r0 Hr0]; [by left|].
  simpl. rewrite (row_errors_one_field _ _ _ i0 row0 r0 Hfault) by (done || by left).
  destruct (IH (S i0) Hrest) as [Hlen Hnth]. simpl.
  split; [by rewrite Hlen|].
  intros [|i] row Hrow; simpl in *.
  - injection Hrow as <-. exists r0. by rewrite Nat.add_0_r.
  - destruct (Hnth i row Hrow) as (r & Hr & Hi). exists r.
    split; [done|]. rewrite Hi. do 2 f_equal. lia.
Qed.

(** C2: validate accumulates every violation across every row and every
    mapped field, and is_valid is true if and only if the accumulated
    list is empty; when N data rows each hold exactly one invalid cell,
    all for the same mapped field, validate returns exactly N errors,
    the i-th for row_index i. *)
Theorem C2_validate_accumulates (rows : list (list string)) :
  let result := Engine.validate mapping columns rows schema in
  (Engine.is_valid result = true ↔ Engine.errors result = [])
  ∧ (∀ f e, columns ≠ [] → f ∈ schema →
            e ∈ Engine.mapping_errors mapping columns f →
            e ∈ Engine.errors result)
  ∧ (∀ i row f j r,
       rows !! i = Some row → f ∈ schema →
       Engine.resolve mapping columns f = Engine.Bound j →
       Engine.cell_violation f (Engine.cell row j) = Some r →
       finding i row f j r ∈ Engine.errors result)
  ∧ (∀ f j,
       one_field_at_fault mapping columns schema rows f j →
       length (Engine.errors result) = length rows
       ∧ ∀ i row, rows !! i = Some row →
           ∃ r, Engine.cell_violation f (Engine.cell row j) = Some r
                ∧ Engine.errors result !! i = Some (finding i row f j r)
                ∧ Engine.row_index (finding i row f j r) = Some i).
Proof.
  intros result. split; [apply is_valid_iff|].
  unfold result, Engine.validate; simpl. split; [|split].
  - intros f e _ Hf He. apply elem_of_app. left.
    apply list_elem_of_In, in_flat_map. exists f.
    split; by apply list_elem_of_In.
  - intros i row f j r Hrow Hf Hres Hbad. apply elem_of_app. right.
    by apply (rows_errors_complete rows 0 i).
  - intros f j Hfault.
    rewrite flat_map_all_nil by apply (fault_mapping_ok _ _ _ _ _ _ Hfault).
    simpl. destruct (rows_errors_one_field rows f j 0 Hfault) as [Hlen Hnth].
    split; [done|]. intros i row Hrow.
    destruct (Hnth i row Hrow) as (r & Hr & Hi). by exists r.
Qed.

End validation.

(** The example of section 8: one finding, for the second data row. *)
Example validate_spec_example :
  let email := {| Engine.name := "email"; Engine.required := true;
                  Engine.expected_kind := Engine.KEmail |} in
  @Engine.validate Engine.sample_recognizers
    {[ "email" := "E-mail" ]}
    [ {| Engine.column_name := "E-mail";
         Engine.sample_values := ["a@b.com"; "not-an-email"] |} ]
    [ ["a@b.com"]; ["not-an-email"] ]
    [ email ]
  = {| Engine.is_valid := false;
       Engine.errors :=
         [ {| Engine.row_index := Some 1%nat; Engine.field := "email";
              Engine.reason := Engine.INVALID_FORMAT;
              Engine.message := "field email: invalid value not-an-email" |} ] |}.
Proof. vm_compute. reflexivity. Qed.

Lemma C2_validate_accumulates_witness :
  let email := {| Engine.name := "email"; Engine.required := true;
                  Engine.expected_kind := Engine.KEmail |} in
  let mapping : gmap string string := {[ "email" := "E-mail" ]} in
  let columns := [ {| Engine.column_name := "E-mail";
                      Engine.sample_values := [] |} ] in
  let rows := [ ["not-an-email"]; ["nope"]; [""] ] in
  length (Engine.errors
            (@Engine.validate Engine.sample_recognizers mapping columns rows
               [email]))
  = 3%nat.
Proof.
  intros email mapping columns rows.
  pose proof (@C2_validate_accumulates Engine.sample_recognizers
                mapping columns [email] rows) as (_ & _ & _ & Hall).
  apply (Hall email 0%nat). split.
  - apply NoDup_singleton.
  - by left.
  - reflexivity.
  - intros g Hg. apply list_elem_of_singleton in Hg as ->. reflexivity.
  - intros row Hrow. unfold rows in Hrow.
    repeat (apply elem_of_cons in Hrow as [->|Hrow]; [by eexists|]).
    by apply elem_of_nil in Hrow.
  - intros row g j' _ Hg Hne. apply list_elem_of_singleton in Hg. done.
Defined.

(** ** Showing the findings: ValidationReport *)

Lemma blank_rows_errors `{Engine.Recognizers} (n : nat) :
  let email := {| Engine.name := "email"; Engine.required := true;
                  Engine.expected_kind := Engine.KEmail |} in
  length (Engine.errors
            (Engine.validate {[ "email" := "E-mail" ]}
               [ {| Engine.column_name := "E-mail";
                    Engine.sample_values := [] |} ]
               (blank_rows n) [email]))
  = n.
Proof.
  intros email. unfold Engine.validate. cbn [Engine.errors].
  rewrite length_app, rows_errors_length. unfold blank_rows.
  rewrite fmap_replicate, sum_list_replicate.
  change (length (flat_map _ [email])) with 0%nat.
  change (length (Engine.row_errors _ _ [email] 0 [""])) with 1%nat.
  lia.
Qed.

Lemma ValidationReport_items (errs : list string) :
  UI.items (UI.ValidationReport errs) = take (length errs `min` 100) errs.
Proof.
  unfold UI.ValidationReport, UI.slice_from_0, UI.MAX_DISPLAY; simpl.
  change (Z.to_nat 100) with 100%nat.
  destruct (decide (length errs ≤ 100)%nat) as [Hle|Hgt].
  - rewrite Nat.min_l by done. by rewrite !firstn_all2 by lia.
  - by rewrite Nat.min_r by lia.
Qed.

(** C5: the engine returns every finding, however many there are; the
    report of the UI shows the first min(n, 100) of the n errors it is
    given, in their order, states the total n in its header, and when
    n > 100 closes with the count n - 100 of the errors it does not
    render; handleValidate hands the whole list of an invalid answer to
    the report. *)
Theorem C5_report_caps_display `{Engine.Recognizers} (errs : list string) :
  let n := length errs in
  let view := UI.ValidationReport errs in
  UI.items view = take (n `min` 100) errs
  ∧ length (UI.items view) = (n `min` 100)%nat
  ∧ (∀ i, (i < n `min` 100)%nat → UI.items view !! i = errs !! i)
  ∧ UI.header_total view = Z.of_nat n
  ∧ ((100 < n)%nat → UI.more view = Some (Z.of_nat n - 100)%Z)
  ∧ ((n ≤ 100)%nat → UI.more view = None)
  ∧ (∀ props st, errs ≠ [] →
       UI.ActionPanel_report
         (UI.run_handler (UI.handleValidate props)
            (λ _, Resolved {| UI.is_valid := false; UI.errors := errs |}) st)
       = Some view)
  ∧ (∀ mapping columns rows schema, columns ≠ [] → schema ≠ [] →
       length (Engine.errors (Engine.validate mapping columns rows schema))
       = (length (flat_map (Engine.mapping_errors mapping columns) schema)
          + sum_list
              ((λ row, length (Engine.row_errors mapping columns schema 0 row))
                 <$> rows))%nat)
  ∧ (∀ k, ∃ mapping columns rows schema,
       length rows = k
       ∧ length (Engine.errors (Engine.validate mapping columns rows schema))
         = k).
Proof.
  intros n view. split; [apply ValidationReport_items|].
  split; [unfold view; rewrite ValidationReport_items, length_take; lia|].
  split.
  { intros i Hi. unfold view. rewrite ValidationReport_items.
    by apply lookup_take_lt. }
  split; [done|].
  unfold view, UI.ValidationReport, UI.MAX_DISPLAY; simpl. fold n.
  split.
  { intros Hn. destruct (0 <? Z.of_nat n - 100)%Z eqn:Hlt; [done|].
    apply Z.ltb_ge in Hlt. lia. }
  split.
  { intros Hn. destruct (0 <? Z.of_nat n - 100)%Z eqn:Hlt; [|done].
    apply Z.ltb_lt in Hlt. lia. }
  split.
  { intros props st Hne. unfold UI.ActionPanel_report, UI.run_handler; simpl.
    destruct errs; done. }
  split.
  { intros mapping columns rows schema _ _. unfold Engine.validate; simpl.
    by rewrite length_app, rows_errors_length. }
  intros k.
  exists {[ "email" := "E-mail" ]},
    [ {| Engine.column_name := "E-mail"; Engine.sample_values := [] |} ],
    (blank_rows k),
    [ {| Engine.name := "email"; Engine.required := true;
         Engine.expected_kind := Engine.KEmail |} ].
  split; [apply length_replicate|apply blank_rows_errors].
Qed.

Lemma C5_report_caps_display_witness :
  let errs := replicate 103 "Row 1: invalid email" in
  UI.more (UI.ValidationReport errs) = Some 3%Z
  ∧ length (UI.items (UI.ValidationReport errs)) = 100%nat.
Proof.
  intros errs.
  pose proof (@C5_report_caps_display Engine.sample_recognizers errs)
    as (_ & Hlen & _ & _ & Hmore & _).
  split.
  - apply Hmore. vm_compute. lia.
  - exact Hlen.
Defined.

(** ** The shape of what validate returns, and of a schema field *)








(** * Further properties of the client *)

(** ** The mapping that is sent *)

Lemma filterMapping_twice (m : gmap string jsval) :
  filterMapping (filterMapping m) = filterMapping m.
Proof.
  apply map_eq. intros k. apply option_eq. intros v.
  rewrite !filterMapping_lookup. tauto.
Qed.

(** Filtering twice is filtering once, nothing is sent that the session
    mapping does not hold, and a mapping goes out unchanged exactly when
    every value in it is a non-empty string. *)
Theorem filterMapping_idempotent (m : gmap string jsval) :
  filterMapping (filterMapping m) = filterMapping m
  ∧ filterMapping m ⊆ m
  ∧ (filterMapping m = m ↔
     ∀ k v, m !! k = Some v → ∃ s, v = JString s ∧ s ≠ "").
Proof.
  split; [|split].
  - apply filterMapping_twice.
  - rewrite filterMapping_filter. apply map_filter_subseteq.
  - split.
    + intros Heq k v Hk. rewrite <- Heq in Hk.
      apply filterMapping_exact in Hk as (_ & Hn & Hu & He).
      destruct v as [| |s]; try done. exists s. split; [done|congruence].
    + intros Hall. apply map_eq. intros k. apply option_eq. intros v.
      rewrite filterMapping_lookup, is_mapped_spec. split; [tauto|].
      intros Hk. split; [done|].
      destruct (Hall k v Hk) as (s & -> & Hs). repeat split; congruence.
Qed.

(** ** Editing the mapping *)

(** Two edits of one field leave the later one, edits of two fields can
    be made in either order, and choosing again the column a field
    already has changes nothing. *)
Theorem updateMapping_compose (st : UI.AppState) (f g c d : string) :
  UI.mapping (run_updates (UI.updateMapping f c ++ UI.updateMapping f d) st)
  = UI.mapping (run_updates (UI.updateMapping f d) st)
  ∧ (f ≠ g →
     UI.mapping (run_updates (UI.updateMapping f c ++ UI.updateMapping g d) st)
     = UI.mapping
         (run_updates (UI.updateMapping g d ++ UI.updateMapping f c) st))
  ∧ (UI.mapping st !! f = Some (JString c) →
     UI.mapping (run_updates (UI.updateMapping f c) st) = UI.mapping st).
Proof.
  simpl. split; [apply insert_insert_eq|]. split.
  - intros Hne. by apply insert_insert_ne.
  - intros Hf. by apply insert_id.
Qed.

Lemma updateMapping_compose_witness :
  let st := {| UI.schema := None; UI.savedMappings := [];
               UI.previewRows := []; UI.currentFileId := Some "f1";
               UI.currentHasHeader := true; UI.csvColumns := [];
               UI.mapping := {[ "email" := JString "E-mail" ]};
               UI.statusMessage := "" |} in
  UI.mapping (run_updates (UI.updateMapping "email" "E-mail") st)
  = UI.mapping st.
Proof.
  intros st.
  apply (updateMapping_compose st "email" "status" "E-mail" "State").
  reflexivity.
Defined.

(** Choosing [-- Not mapped --] for a field keeps the field in the
    session mapping, with the empty string, and takes it out of what is
    sent; what is sent for the other fields stays. *)
Theorem unmapping_omits_field (st : UI.AppState) (f : string) :
  let st' := run_updates (UI.updateMapping f "") st in
  UI.mapping st' !! f = Some (JString "")
  ∧ filterMapping (UI.mapping st') = delete f (filterMapping (UI.mapping st)).
Proof.
  simpl. split; [apply lookup_insert_eq|].
  apply map_eq. intros k. apply option_eq. intros v.
  rewrite filterMapping_lookup. destruct (decide (f = k)) as [->|Hne].
  - rewrite lookup_insert_eq, lookup_delete_eq. split; [|done].
    intros [[= <-] Hm]. done.
  - rewrite lookup_insert_ne, lookup_delete_ne by done.
    by rewrite filterMapping_lookup.
Qed.

Lemma shown_option_shown_for (schema : UI.Schema)
    (csvColumns : list UI.CsvColumn) (m : gmap string jsval)
    (field : UI.SchemaField) :
  ∀ row,
    row = {| UI.row_label := UI.name field;
             UI.row_star := if UI.required field then "*" else "";
             UI.select_value := UI.selected m (UI.name field);
             UI.select_options := "" :: (UI.column_name <$> csvColumns);
             UI.onChange v := UI.updateMapping (UI.name field) v |} →
    shown_option row = shown_for csvColumns m (UI.name field).
Proof. by intros row ->. Qed.

Lemma shown_for_spec (csvColumns : list UI.CsvColumn)
    (m : gmap string jsval) (f c : string) :
  c ≠ "" →
  shown_for csvColumns m f = c ↔
  m !! f = Some (JString c) ∧ c ∈ UI.column_name <$> csvColumns.
Proof.
  intros Hc. unfold shown_for, UI.selected. split.
  - case_bool_decide as Hin; [|intros Heq; congruence].
    intros Heq. destruct (m !! f) as [[| |s]|]; simpl in *; try congruence.
    subst s. split; [done|].
    apply elem_of_cons in Hin as [Hin|Hin]; [congruence|done].
  - intros [-> Hin]. rewrite bool_decide_eq_true_2; [done|by right].
Qed.

(** The names of the fields of [schema] are none of those that an
    object inherits from [Object.prototype], so that [mapping[name]]
    finds the own property of that name or nothing. *)
Definition ordinary_fields (schema : UI.Schema) : Prop :=
  ∀ field, field ∈ UI.fields schema →
           UI.name field ∉ Object_prototype_names.

(** For a schema whose field names are ordinary: the table has one row
    per schema field, in the order of the schema, and every select
    offers the empty option and then the columns of the file; a row
    displays the column [c] exactly when the mapping gives [c] to its
    field and [c] is a column of the file, and displays the empty option
    otherwise; after the [onChange] of a row with one of its options
    [v], the rows of that field display [v] and every other row
    displays what it displayed. *)
Theorem MappingTable_shows_mapping (schema : UI.Schema)
    (csvColumns : list UI.CsvColumn) (st : UI.AppState) :
  ordinary_fields schema →
  let table m := UI.MappingTable schema csvColumns m UI.updateMapping in
  UI.row_label <$> table (UI.mapping st) = UI.name <$> UI.fields schema
  ∧ (∀ row, row ∈ table (UI.mapping st) →
       UI.select_options row = "" :: (UI.column_name <$> csvColumns)
       ∧ shown_option row ∈ UI.select_options row
       ∧ (∀ c, c ≠ "" →
            (shown_option row = c ↔
             UI.mapping st !! UI.row_label row = Some (JString c)
             ∧ c ∈ UI.column_name <$> csvColumns)))
  ∧ (∀ row v, row ∈ table (UI.mapping st) → v ∈ UI.select_options row →
       shown_option
         <$> table (UI.mapping (run_updates (UI.onChange row v) st))
       = (λ field,
            if decide (UI.name field = UI.row_label row) then v
            else shown_for csvColumns (UI.mapping st) (UI.name field))
           <$> UI.fields schema).
Proof.
  intros _ table. unfold table, UI.MappingTable. split; [|split].
  - by rewrite <- list_fmap_compose.
  - intros row Hrow. apply list_elem_of_fmap in Hrow as [field [-> _]].
    split; [done|]. split.
    + unfold shown_option; simpl. case_bool_decide; [done|by left].
    + intros c Hc.
      rewrite (shown_option_shown_for schema csvColumns (UI.mapping st) field)
        by done.
      by apply shown_for_spec.
  - intros row v Hrow Hv.
    apply list_elem_of_fmap in Hrow as [field [-> _]]; simpl in *.
    rewrite <- list_fmap_compose. apply list_fmap_ext. intros _ g _; simpl.
    rewrite (shown_option_shown_for schema csvColumns _ g) by done.
    unfold shown_for, UI.selected.
    destruct (decide (UI.name g = UI.name field)) as [->|Hne].
    + rewrite lookup_insert_eq. by rewrite bool_decide_eq_true_2.
    + by rewrite lookup_insert_ne.
Qed.

Lemma MappingTable_shows_mapping_witness :
  let schema := {| UI.fields := [ {| UI.name := "email"; UI.required := true |};
                                  {| UI.name := "status"; UI.required := false |} ] |} in
  let cols := [ {| UI.column_name := "E-mail" |} ] in
  let st := {| UI.schema := Some schema; UI.savedMappings := [];
               UI.previewRows := []; UI.currentFileId := Some "f1";
               UI.currentHasHeader := true; UI.csvColumns := cols;
               UI.mapping := {[ "status" := JString "State" ]};
               UI.statusMessage := "" |} in
  ordinary_fields schema
  ∧ ∃ row, row ∈ UI.MappingTable schema cols (UI.mapping st) UI.updateMapping
           ∧ shown_option
               <$> UI.MappingTable schema cols
                     (UI.mapping (run_updates (UI.onChange row "E-mail") st))
                     UI.updateMapping
             = ["E-mail"; ""].
Proof.
  intros schema cols st.
  assert (ordinary_fields schema) as Hord.
  { intros field Hfield. unfold schema in Hfield; simpl in Hfield.
    apply elem_of_cons in Hfield as [->|Hfield];
      [by apply (bool_decide_unpack _)|].
    apply list_elem_of_singleton in Hfield as ->.
    by apply (bool_decide_unpack _). }
  split; [exact Hord|].
  destruct (MappingTable_shows_mapping schema cols st Hord)
    as (_ & _ & Hchange).
  eexists. split; [by left|].
  rewrite Hchange; [reflexivity|by left|by right; left].
Defined.

(** ** Auto-suggest: the count, the status line and what gets sent *)

Lemma auto_loop_size_le (l : list UI.Suggestion)
    (acc : gmap string jsval * nat) :
  (size acc.1 ≤ acc.2)%nat →
  (size (foldl UI.auto_step acc l).1 ≤ (foldl UI.auto_step acc l).2)%nat.
Proof.
  revert acc. induction l as [|s l IH]; intros acc Hacc; simpl; [done|].
  apply IH. unfold UI.auto_step. destruct (UI.auto_applies s); simpl; [|done].
  pose proof (assign_size acc.1 (UI.schema_field s)
                (JString (UI.csv_column s))). lia.
Qed.

Lemma filter_nil_iff {A : Type} (p : A → bool) (l : list A) :
  List.filter p l = [] ↔ ∀ x, x ∈ l → p x = false.
Proof.
  induction l as [|a l IH]; simpl.
  - split; [|done]. intros _ x Hx. by apply elem_of_nil in Hx.
  - destruct (p a) eqn:Ha.
    + split; [done|]. intros Hall. specialize (Hall a). rewrite Ha in Hall.
      discriminate Hall. by left.
    + rewrite IH. split.
      * intros Hall x [->|Hx]%elem_of_cons; auto.
      * intros Hall x Hx. apply Hall. by right.
Qed.

(** The status line counts the suggestions that pass the test, which is
    at least the number of fields that end up mapped (two suggestions
    for one field count twice); it reads [No confident matches found.]
    exactly when no suggestion passes, and then the new mapping is
    empty. *)
Theorem auto_suggest_count (st : UI.AppState) (fileId : string)
    (hasHeader : bool) (data : UI.SuggestMappingResponse) :
  let st' := after_auto_suggest fileId hasHeader data st in
  let count := length (List.filter UI.auto_applies (UI.suggestions data)) in
  UI.statusMessage st'
  = (if (0 <? count)%nat
     then "Auto-mapped " +:+ pretty count +:+ " columns."
     else "No confident matches found.")
  ∧ (size (UI.mapping st') ≤ count)%nat
  ∧ (UI.statusMessage st' = "No confident matches found." ↔
     ∀ s, s ∈ UI.suggestions data → UI.auto_applies s = false)
  ∧ ((∀ s, s ∈ UI.suggestions data → UI.auto_applies s = false) →
     UI.mapping st' = ∅).
Proof.
  intros st' count.
  assert ((UI.auto_loop (UI.suggestions data)).2 = count) as Hcount.
  { unfold UI.auto_loop. by rewrite auto_loop_from_count. }
  assert (UI.statusMessage st'
          = (if (0 <? count)%nat
             then "Auto-mapped " +:+ pretty count +:+ " columns."
             else "No confident matches found.")) as Hmsg.
  { unfold st', after_auto_suggest, UI.run_handler; simpl.
    destruct (UI.auto_loop (UI.suggestions data)) as [m n]; simpl in *.
    by subst n. }
  assert ((size (UI.mapping st') ≤ count)%nat) as Hsize.
  { unfold st'. rewrite after_auto_suggest_mapping, <- Hcount.
    apply auto_loop_size_le. simpl. by rewrite map_size_empty. }
  split; [done|]. split; [done|]. split.
  - rewrite Hmsg, <- filter_nil_iff. unfold count.
    destruct (List.filter UI.auto_applies (UI.suggestions data)); simpl.
    + done.
    + split; [|done]. intros Heq. cbv [String.append] in Heq. discriminate Heq.
  - intros Hnone. apply filter_nil_iff in Hnone.
    apply map_size_empty_iff. unfold count in Hsize. rewrite Hnone in Hsize.
    simpl in Hsize. lia.
Qed.

Lemma auto_suggest_count_witness :
  let data := {| UI.suggestions :=
                   [ {| UI.schema_field := "email"; UI.csv_column := "E-mail";
                        UI.confidence := 49 # 100 |} ] |} in
  let st := {| UI.schema := None; UI.savedMappings := [];
               UI.previewRows := []; UI.currentFileId := Some "f1";
               UI.currentHasHeader := true; UI.csvColumns := [];
               UI.mapping := {[ "email" := JString "Old" ]};
               UI.statusMessage := "" |} in
  UI.mapping (after_auto_suggest "f1" true data st) = ∅.
Proof.
  intros data st.
  apply (auto_suggest_count st "f1" true data).
  intros s Hs. apply list_elem_of_singleton in Hs as ->. reflexivity.
Defined.

(** After an auto-suggest run, what a validation or a save sends for a
    field is the column of the last suggestion that passed the test for
    that field, unless that column is the empty string: then the field
    is counted as auto-mapped but is not sent.  Nothing is ever sent for
    the field [__proto__], which the run counts but does not write. *)
Theorem auto_suggest_then_send (st : UI.AppState) (fileId : string)
    (hasHeader : bool) (data : UI.SuggestMappingResponse) (f : string)
    (v : jsval) :
  filterMapping (UI.mapping (after_auto_suggest fileId hasHeader data st)) !! f
  = Some v ↔
  f ≠ "__proto__"
  ∧ ∃ s, last_applied (UI.suggestions data) f = Some s
         ∧ v = JString (UI.csv_column s) ∧ UI.csv_column s ≠ "".
Proof.
  rewrite filterMapping_lookup, is_mapped_spec.
  rewrite after_auto_suggest_mapping.
  destruct (decide (f = "__proto__")) as [->|Hf].
  { rewrite auto_loop_proto. split; [by intros [? _]|by intros [? _]]. }
  rewrite auto_loop_lookup by done.
  destruct (last_applied (UI.suggestions data) f) as [s|]; simpl.
  - split.
    + intros ([= <-] & _ & _ & Hne). split; [done|]. exists s.
      split; [done|]. split; [done|]. congruence.
    + intros (_ & s' & [= <-] & -> & Hne). repeat split; congruence.
  - split; [by intros [? _]|]. by intros (_ & s' & ? & _).
Qed.

(** ** Validation: what the action panel shows *)

(** Whatever the call does, the panel leaves the validating state: the
    button is enabled again and the status is success exactly when the
    call resolved with a valid answer.  While the call is pending the
    errors of an earlier run are gone, and after a success none is kept,
    even if the answer carried some.  The report is on the screen
    exactly when the run ended in error with at least one message, and
    it then shows the messages of this run. *)
Theorem handleValidate_lifecycle (props : UI.ActionPanelProps)
    (o : Outcome UI.ValidateMappingResponse) (st : UI.ActionPanelState) :
  let pending := run_updates (UI.before (UI.handleValidate props)) st in
  let st' := UI.run_handler (UI.handleValidate props) (λ _, o) st in
  let shown :=
    match o with
    | Resolved data => if UI.is_valid data then [] else UI.errors data
    | Rejected _ =>
        ["System error: Failed to connect to validation service."]
    end in
  ActionPanel_button_disabled pending = true
  ∧ UI.ActionPanel_report pending = None
  ∧ ActionPanel_button_disabled st' = false
  ∧ (ActionPanel_success_banner st' = true ↔
     ∃ data, o = Resolved data ∧ UI.is_valid data = true)
  ∧ UI.errorList st' = shown
  ∧ UI.ActionPanel_report st'
    = (if decide (shown = []) then None else Some (UI.ValidationReport shown)).
Proof.
  intros pending st' shown. unfold st', pending, shown, UI.run_handler.
  destruct o as [data|message]; simpl.
  - destruct (UI.is_valid data) eqn:Hv; simpl.
    + repeat split; try done. intros _. by exists data.
    + repeat split; try done.
      * intros (data' & [= <-] & Hv'). congruence.
      * unfold UI.ActionPanel_report; simpl.
        by destruct (UI.errors data).
  - repeat split; try done. by intros (data & ? & _).
Qed.

(** The report accounts for every error it is given: the number of
    items it lists plus the number it announces as remaining is the
    total of its header; it announces a remainder exactly when it was
    given more than 100 errors, and it writes [error] in the singular
    exactly for one error. *)
Theorem ValidationReport_accounts_for_all (errs : list string) :
  let view := UI.ValidationReport errs in
  (Z.of_nat (length (UI.items view)) + default 0%Z (UI.more view))%Z
  = UI.header_total view
  ∧ UI.items view ++ drop 100 errs = errs
  ∧ (is_Some (UI.more view) ↔ (100 < length errs)%nat)
  ∧ (UI.header_plural view = false ↔ length errs = 1%nat).
Proof.
  intros view.
  pose proof (ValidationReport_items errs) as Hitems. fold view in Hitems.
  assert (length (UI.items view) = (length errs `min` 100)%nat) as Hlen.
  { rewrite Hitems, length_take. lia. }
  unfold view, UI.ValidationReport, UI.MAX_DISPLAY in *; simpl in *.
  split; [|split; [|split]].
  - rewrite Hlen. destruct (0 <? Z.of_nat (length errs) - 100)%Z eqn:Hlt; simpl.
    + apply Z.ltb_lt in Hlt. lia.
    + apply Z.ltb_ge in Hlt. lia.
  - unfold UI.slice_from_0. change (Z.to_nat 100) with 100%nat.
    apply take_drop.
  - destruct (0 <? Z.of_nat (length errs) - 100)%Z eqn:Hlt.
    + apply Z.ltb_lt in Hlt. split; [lia|by eexists].
    + apply Z.ltb_ge in Hlt. split; [by intros [? ?]|lia].
  - rewrite negb_false_iff, Z.eqb_eq. lia.
Qed.

(** ** Trimming *)

Lemma chars_inj (s t : string) :
  list_ascii_of_string s = list_ascii_of_string t → s = t.
Proof.
  intros Heq.
  rewrite <- (string_of_list_ascii_of_string s),
          <- (string_of_list_ascii_of_string t).
  by rewrite Heq.
Qed.

Lemma chars_rev_app (s1 s2 : string) :
  list_ascii_of_string (String.rev_app s1 s2)
  = rev (list_ascii_of_string s1) ++ list_ascii_of_string s2.
Proof.
  revert s2. induction s1 as [|c s1 IH]; intros s2; simpl; [done|].
  rewrite IH; simpl. by rewrite <- app_assoc.
Qed.

Lemma chars_rev (s : string) :
  list_ascii_of_string (String.rev s) = rev (list_ascii_of_string s).
Proof. unfold String.rev. rewrite chars_rev_app; simpl. apply app_nil_r. Qed.

Lemma string_rev_involutive (s : string) : String.rev (String.rev s) = s.
Proof. apply chars_inj. by rewrite !chars_rev, rev_involutive. Qed.

Lemma trimStart_idempotent (s : string) :
  trimStart (trimStart s) = trimStart s.
Proof.
  induction s as [|c s IH]; simpl; [done|].
  destruct (is_js_whitespace c) eqn:Hc; [done|]. simpl. by rewrite Hc.
Qed.

(** A string that does not begin with white space. *)
Definition clean_start (l : list ascii) : Prop :=
  match l with
  | [] => True
  | c :: _ => is_js_whitespace c = false
  end.

Lemma trimStart_clean (s : string) :
  clean_start (list_ascii_of_string (trimStart s)).
Proof.
  induction s as [|c s IH]; simpl; [done|].
  by destruct (is_js_whitespace c) eqn:Hc.
Qed.

Lemma clean_trimStart (s : string) :
  clean_start (list_ascii_of_string s) → trimStart s = s.
Proof. destruct s as [|c s]; simpl; [done|]. by intros ->. Qed.

Lemma trimStart_suffix (s : string) :
  ∃ w, list_ascii_of_string s = w ++ list_ascii_of_string (trimStart s).
Proof.
  induction s as [|c s [w IH]]; simpl; [by exists []|].
  destruct (is_js_whitespace c).
  - exists (c :: w). simpl. by rewrite IH.
  - by exists [].
Qed.

Lemma trimEnd_prefix (s : string) :
  ∃ w, list_ascii_of_string s = list_ascii_of_string (trimEnd s) ++ w.
Proof.
  unfold trimEnd. destruct (trimStart_suffix (String.rev s)) as [w Hw].
  exists (rev w). rewrite chars_rev in *.
  rewrite <- (rev_involutive (list_ascii_of_string s)), Hw.
  by rewrite rev_app_distr.
Qed.

Lemma trimEnd_keeps_clean (s : string) :
  clean_start (list_ascii_of_string s) →
  clean_start (list_ascii_of_string (trimEnd s)).
Proof.
  intros Hs. destruct (trimEnd_prefix s) as [w Hw]. rewrite Hw in Hs.
  by destruct (list_ascii_of_string (trimEnd s)).
Qed.

Lemma trimEnd_idempotent (s : string) : trimEnd (trimEnd s) = trimEnd s.
Proof.
  unfold trimEnd. by rewrite string_rev_involutive, trimStart_idempotent.
Qed.

Lemma trim_stable (s : string) :
  trimStart (trim s) = trim s ∧ trimEnd (trim s) = trim s.
Proof.
  unfold trim. split.
  - apply clean_trimStart, trimEnd_keeps_clean, trimStart_clean.
  - apply trimEnd_idempotent.
Qed.

Lemma trim_idempotent (s : string) : trim (trim s) = trim s.
Proof.
  destruct (trim_stable s) as [Hs He].
  unfold trim at 1. by rewrite Hs, He.
Qed.

Lemma or_else_nonempty (a b : string) : b ≠ "" → or_else a b ≠ "".
Proof.
  intros Hb. unfold or_else. destruct (truthy a) eqn:Ha; [|done].
  by apply truthy_true.
Qed.

(** ** Saving and loading: StoragePanel *)

(** The name a save request carries is never empty and has no white
    space at either end: it is the trimmed input, or the default name
    when nothing is left of the input. *)
Theorem saved_name_is_trimmed (props : UI.StoragePanelProps)
    (st : UI.StoragePanelState) :
  ∃ name,
    UI.call (UI.handleSaveMapping props st)
    = UI.saveMapping name (filterMapping (UI.sp_mapping props))
    ∧ name ≠ ""
    ∧ trim name = name
    ∧ (name = trim (UI.mappingName st) ∨ name = "Unnamed mapping").
Proof.
  exists (or_else (trim (UI.mappingName st)) "Unnamed mapping").
  split; [done|]. split; [by apply or_else_nonempty|].
  unfold or_else. destruct (truthy (trim (UI.mappingName st))).
  - split; [apply trim_idempotent|by left].
  - split; [reflexivity|by right].
Qed.

(** After a save of either kind the panel always has a text to show and
    marks it as a success exactly when the call resolved; a rejection
    shows its own message when it has one; the name typed in and the
    selection of the load list are left as they are. *)
Theorem save_feedback (props : UI.StoragePanelProps)
    (st : UI.StoragePanelState) (o : Outcome UI.SaveMappingResponse) :
  ∀ st',
    (st' = UI.run_handler (UI.handleSaveMapping props st) (λ _, o) st
     ∨ st' = UI.run_handler (UI.handleSaveData props) (λ _, o) st) →
    UI.saveResult st' ≠ ""
    ∧ (UI.saveClass st' = "success" ↔ ∃ saved, o = Resolved saved)
    ∧ (UI.saveClass st' = "error" ↔ ∃ message, o = Rejected message)
    ∧ (∀ message, o = Rejected message → message ≠ "" →
         UI.saveResult st' = message)
    ∧ UI.mappingName st' = UI.mappingName st
    ∧ UI.selectedId st' = UI.selectedId st.
Proof.
  intros st' Hst'. unfold UI.run_handler in Hst'.
  destruct o as [saved|message]; simpl in Hst'.
  - destruct Hst' as [-> | ->]; simpl.
    all: split; [done|]; split; [split; [by eexists|done]|].
    all: split; [split; [done|by intros [? ?]]|].
    all: split; [by intros ? [=]|done].
  - assert (UI.saveClass st' = "error"
            ∧ UI.mappingName st' = UI.mappingName st
            ∧ UI.selectedId st' = UI.selectedId st
            ∧ (UI.saveResult st' = or_else message "Failed to save mapping."
               ∨ UI.saveResult st' = or_else message "Failed to save data."))
      as (Hc & Hn & Hs & Hr).
    { destruct Hst' as [-> | ->]; simpl; repeat split; auto. }
    rewrite Hc. split.
    { destruct Hr as [-> | ->]; by apply or_else_nonempty. }
    split; [split; [done|by intros [? ?]]|].
    split; [split; [by eexists|done]|].
    split; [|done]. intros m [= <-] Hne.
    apply truthy_true in Hne. unfold or_else in Hr. rewrite Hne in Hr.
    by destruct Hr.
Qed.

Lemma save_feedback_witness :
  let props := {| UI.sp_fileId := "f1"; UI.sp_hasHeader := true;
                  UI.sp_mapping := ∅ |} in
  let st := {| UI.mappingName := "mine"; UI.saveResult := "";
               UI.saveClass := ""; UI.selectedId := "" |} in
  UI.saveResult
    (UI.run_handler (UI.handleSaveData props)
       (λ _, Rejected "Mapping is missing required field: email") st)
  = "Mapping is missing required field: email".
Proof.
  intros props st.
  eapply (save_feedback props st
            (Rejected "Mapping is missing required field: email")).
  - by right.
  - reflexivity.
  - done.
Defined.

(** Loading a saved mapping: the selection of the list always follows
    the choice; the placeholder sends nothing and changes nothing in the
    session; any other id is fetched at [/api/mappings/] followed by the
    id as it is, and the answer replaces the whole mapping, while a
    failure leaves the session as it was; nothing but the mapping is
    ever touched in the session. *)
Theorem handleLoad_behaviour (id : string)
    (answer : string → Outcome Storage.SingleMappingResponse)
    (pst : UI.StoragePanelState) (st : UI.AppState) :
  let pst' := run_updates (Storage.handleLoad id answer).1 pst in
  let st' := run_updates (Storage.handleLoad id answer).2 st in
  UI.selectedId pst' = id
  ∧ same_session st st'
  ∧ (id = "" → Storage.handleLoad_call id = None ∧ st' = st)
  ∧ (id ≠ "" →
     Storage.handleLoad_call id = Some ("/api/mappings/" +:+ id)
     ∧ (∀ data, answer id = Resolved data →
          UI.mapping st' = Storage.single_mapping data)
     ∧ (∀ message, answer id = Rejected message → st' = st)).
Proof.
  intros pst' st'. unfold pst', st', Storage.handleLoad, Storage.handleLoad_call.
  simpl. split; [done|].
  destruct (truthy id) eqn:Hid.
  - apply truthy_true in Hid. split.
    { by destruct (answer id). }
    split; [done|]. intros _. split; [done|]. split.
    + by intros data ->.
    + by intros message ->.
  - assert (id = "") as ->.
    { destruct (decide (id = "")) as [|Hne]; [done|].
      apply truthy_true in Hne. congruence. }
    by repeat split.
Qed.

Lemma handleLoad_behaviour_witness :
  let answer := λ _ : string,
    Resolved {| Storage.single_id := "7"; Storage.single_name := "mine";
                Storage.single_mapping := {[ "email" := JString "E-mail" ]} |} in
  let st := {| UI.schema := None; UI.savedMappings := [];
               UI.previewRows := []; UI.currentFileId := Some "f1";
               UI.currentHasHeader := true; UI.csvColumns := [];
               UI.mapping := {[ "status" := JString "State" ]};
               UI.statusMessage := "" |} in
  Storage.handleLoad_call "7" = Some "/api/mappings/7"
  ∧ UI.mapping (run_updates (Storage.handleLoad "7" answer).2 st)
    = {[ "email" := JString "E-mail" ]}.
Proof.
  intros answer st.
  destruct (handleLoad_behaviour "7" answer
              {| UI.mappingName := ""; UI.saveResult := "";
                 UI.saveClass := ""; UI.selectedId := "" |} st)
    as (_ & _ & _ & Hload).
  destruct Hload as (Hcall & Hok & _); [done|].
  split; [exact Hcall|]. exact (Hok _ eq_refl).
Defined.

(** Save, then load: if the backend answers the load with the mapping
    that the save request carried, the session mapping becomes the
    saved one, a field that was left unmapped shows as not mapped, and
    validating or saving again sends the very same object. *)
Theorem save_then_load_round_trip (props : UI.StoragePanelProps)
    (pst : UI.StoragePanelState) (id : string)
    (answer : string → Outcome Storage.SingleMappingResponse)
    (data : Storage.SingleMappingResponse) (st : UI.AppState) :
  id ≠ "" →
  answer id = Resolved data →
  UI.sent_mapping (UI.call (UI.handleSaveMapping props pst))
  = Some (Storage.single_mapping data) →
  let sent := filterMapping (UI.sp_mapping props) in
  let st' := run_updates (Storage.handleLoad id answer).2 st in
  UI.mapping st' = sent
  ∧ filterMapping (UI.mapping st') = sent
  ∧ (∀ f, UI.sp_mapping props !! f = Some (JString "") →
          UI.selected (UI.mapping st') f = ""
          ∧ UI.mapping st' !! f = None).
Proof.
  intros Hid Hanswer Hsaved sent st'. simpl in Hsaved.
  injection Hsaved as Hsaved.
  assert (UI.mapping st' = sent) as Hst'.
  { unfold st', Storage.handleLoad; simpl.
    apply truthy_true in Hid. rewrite Hid, Hanswer. simpl. by symmetry. }
  split; [done|]. rewrite Hst'. split.
  - apply filterMapping_twice.
  - intros f Hf. unfold UI.selected, sent.
    by rewrite (filterMapping_no_empty _ _ Hf).
Qed.

Lemma save_then_load_round_trip_witness :
  let props := {| UI.sp_fileId := "f1"; UI.sp_hasHeader := true;
                  UI.sp_mapping := {[ "email" := JString "E-mail";
                                      "status" := JString "" ]} |} in
  let pst := {| UI.mappingName := "mine"; UI.saveResult := "";
                UI.saveClass := ""; UI.selectedId := "" |} in
  let data := {| Storage.single_id := "7"; Storage.single_name := "mine";
                 Storage.single_mapping := {[ "email" := JString "E-mail" ]} |} in
  let st := {| UI.schema := None; UI.savedMappings := [];
               UI.previewRows := []; UI.currentFileId := Some "f1";
               UI.currentHasHeader := true; UI.csvColumns := [];
               UI.mapping := ∅; UI.statusMessage := "" |} in
  UI.mapping (run_updates (Storage.handleLoad "7" (λ _, Resolved data)).2 st)
  = filterMapping (UI.sp_mapping props).
Proof.
  intros props pst data st.
  apply (save_then_load_round_trip props pst "7" (λ _, Resolved data) data st).
  - done.
  - reflexivity.
  - by vm_compute.
Defined.

(** ** The session: a new file *)

(** The effect that initialises a file never changes what it depends
    on, the file id and the header flag, nor the schema and the list of
    saved mappings, whatever the three calls answer. *)
Theorem initFile_keeps_dependencies (b : Session.Backend) (fileId : string)
    (hasHeader : bool) (st : UI.AppState) :
  let st' := run_updates (Session.initFile b fileId hasHeader) st in
  UI.currentFileId st' = UI.currentFileId st
  ∧ UI.currentHasHeader st' = UI.currentHasHeader st
  ∧ UI.schema st' = UI.schema st
  ∧ UI.savedMappings st' = UI.savedMappings st
  ∧ Session.hasUploadedFile st' = Session.hasUploadedFile st.
Proof.
  unfold Session.initFile, Session.autoSuggest, Session.hasUploadedFile.
  destruct (Session.answer_columns b fileId hasHeader); simpl; [|done].
  destruct (Session.answer_preview b fileId hasHeader); simpl; [|done].
  destruct (Session.answer_suggest b fileId hasHeader) as [data|]; simpl;
    [|done].
  by destruct (UI.auto_loop (UI.suggestions data)).
Qed.

(** When the columns cannot be fetched the effect stops there: nothing
    is set, no suggestion is asked for and no message is shown.  When
    the preview cannot be fetched the columns are set but the mapping
    and the status line stay.  Only when both are there the
    auto-suggest run decides the mapping and the status line. *)
Theorem initFile_stops_at_first_failure (b : Session.Backend)
    (fileId : string) (hasHeader : bool) (st : UI.AppState) :
  let st' := run_updates (Session.initFile b fileId hasHeader) st in
  (∀ message,
     Session.answer_columns b fileId hasHeader = Rejected message → st' = st)
  ∧ (∀ colData message,
       Session.answer_columns b fileId hasHeader = Resolved colData →
       Session.answer_preview b fileId hasHeader = Rejected message →
       UI.csvColumns st' = Session.columns colData
       ∧ UI.previewRows st' = UI.previewRows st
       ∧ UI.mapping st' = UI.mapping st
       ∧ UI.statusMessage st' = UI.statusMessage st)
  ∧ (∀ colData previewData,
       Session.answer_columns b fileId hasHeader = Resolved colData →
       Session.answer_preview b fileId hasHeader = Resolved previewData →
       UI.csvColumns st' = Session.columns colData
       ∧ UI.previewRows st' = Session.rows previewData
       ∧ UI.mapping st'
         = UI.mapping
             (UI.run_handler (UI.handleAutoSuggest fileId hasHeader)
                (λ _, Session.answer_suggest b fileId hasHeader) st)
       ∧ UI.statusMessage st'
         = UI.statusMessage
             (UI.run_handler (UI.handleAutoSuggest fileId hasHeader)
                (λ _, Session.answer_suggest b fileId hasHeader) st)).
Proof.
  intros st'. unfold st', Session.initFile, Session.autoSuggest, UI.run_handler.
  split; [|split].
  - by intros message ->.
  - by intros colData message -> ->.
  - intros colData previewData -> ->. simpl.
    destruct (Session.answer_suggest b fileId hasHeader) as [data|]; simpl;
      [|done].
    by destruct (UI.auto_loop (UI.suggestions data)).
Qed.

Lemma initFile_stops_at_first_failure_witness :
  let b := {| Session.answer_columns := λ _ _, Rejected "Failed to load columns";
              Session.answer_preview := λ _ _, Rejected "Failed to load preview";
              Session.answer_suggest := λ _ _, Rejected "Failed to get suggestions";
              Session.answer_mappings := Rejected "Failed to load mappings" |} in
  let st := {| UI.schema := None; UI.savedMappings := [];
               UI.previewRows := []; UI.currentFileId := Some "f1";
               UI.currentHasHeader := true; UI.csvColumns := [];
               UI.mapping := ∅; UI.statusMessage := "" |} in
  run_updates (Session.initFile b "f1" true) st = st.
Proof.
  intros b st.
  destruct (initFile_stops_at_first_failure b "f1" true st) as (Hfail & _).
  by eapply Hfail.
Defined.

(** A file is chosen and uploaded.  When no file is chosen or the upload
    fails, the handler leaves the session exactly as it was, mapping
    included, and a failed upload always has a text to show.  When the
    upload succeeds, the handler leaves the session on the new file id
    and header flag with an empty mapping; in that state an empty file
    id keeps the panels off the screen and its effect starts no call,
    and for any other file id the effect is the initialisation of that
    very file. *)
Theorem upload_starts_clean_session (fileChosen : bool)
    (answer : Outcome Upload.UploadResponse) (b : Session.Backend)
    (ust : Upload.UploadState) (st : UI.AppState) :
  let ust' := run_updates (Upload.handleSubmit fileChosen answer b).1 ust in
  let st1 := run_updates (Upload.handleSubmit fileChosen answer b).2 st in
  (fileChosen = false → st1 = st ∧ ust' = ust)
  ∧ (∀ message, fileChosen = true → answer = Rejected message →
       st1 = st
       ∧ Upload.status ust' ≠ ""
       ∧ Upload.statusClass ust' = "error"
       ∧ Upload.headerStatus ust' = "")
  ∧ (∀ data, fileChosen = true → answer = Resolved data →
       UI.currentFileId st1 = Some (Upload.file_id data)
       ∧ UI.currentHasHeader st1 = Upload.has_header data
       ∧ UI.mapping st1 = ∅
       ∧ Upload.statusClass ust' = "success"
       ∧ (Upload.file_id data = "" →
            Session.file_effect b st1 = []
            ∧ Session.panels_shown st1 = false)
       ∧ (Upload.file_id data ≠ "" →
            Session.file_effect b st1
            = Session.initFile b (Upload.file_id data)
                (Upload.has_header data))).
Proof.
  intros ust' st1. split; [by intros ->|]. split.
  - intros message -> ->. unfold st1, ust'; simpl.
    split; [done|]. split; [|done]. by apply or_else_nonempty.
  - intros data -> ->.
    assert (UI.currentFileId st1 = Some (Upload.file_id data)
            ∧ UI.currentHasHeader st1 = Upload.has_header data
            ∧ UI.mapping st1 = ∅) as (Hid & Hh & Hm).
    { unfold st1, Upload.handleSubmit, Session.loadSavedMappings. simpl.
      by destruct (Session.answer_mappings b). }
    split; [done|]. split; [done|]. split; [done|]. split; [done|].
    unfold Session.file_effect, Session.panels_shown,
      Session.hasUploadedFile.
    rewrite Hid, Hh. split.
    + by intros ->.
    + intros Hne. apply truthy_true in Hne. by rewrite Hne.
Qed.

Lemma upload_starts_clean_session_witness :
  let b := {| Session.answer_columns := λ _ _, Rejected "Failed to load columns";
              Session.answer_preview := λ _ _, Rejected "Failed to load preview";
              Session.answer_suggest := λ _ _, Rejected "Failed to get suggestions";
              Session.answer_mappings := Rejected "Failed to load mappings" |} in
  let st := {| UI.schema := None; UI.savedMappings := [];
               UI.previewRows := []; UI.currentFileId := Some "f1";
               UI.currentHasHeader := true; UI.csvColumns := [];
               UI.mapping := {[ "email" := JString "Old" ]};
               UI.statusMessage := "" |} in
  let answer := Resolved {| Upload.file_id := "f2";
                            Upload.has_header := false |} in
  UI.mapping (run_updates (Upload.handleSubmit true answer b).2 st) = ∅.
Proof.
  intros b st answer.
  destruct (upload_starts_clean_session true answer b
              {| Upload.headerStatus := ""; Upload.status := "";
                 Upload.statusClass := "" |} st) as (_ & _ & Hok).
  by destruct (Hok _ eq_refl eq_refl) as (_ & _ & Hm & _).
Defined.

(** [Reset & Auto Suggest]: without a file nothing is sent and nothing
    changes; with a file, a resolved run replaces the mapping as a
    whole, so that a hand-made entry for a field that no suggestion
    names is gone; and whenever the panels are on the screen the button
    does start a run. *)
Theorem triggerAutoSuggest_replaces_mapping (b : Session.Backend)
    (st : UI.AppState) :
  let st' := run_updates (Session.triggerAutoSuggest b st) st in
  (Session.hasUploadedFile st = false → st' = st)
  ∧ (Session.panels_shown st = true → Session.triggerAutoSuggest b st ≠ [])
  ∧ (∀ id data,
       UI.currentFileId st = Some id → id ≠ "" →
       Session.answer_suggest b id (UI.currentHasHeader st) = Resolved data →
       UI.mapping st' = (UI.auto_loop (UI.suggestions data)).1
       ∧ ∀ f, (∀ s, s ∈ UI.suggestions data → UI.schema_field s ≠ f) →
              UI.mapping st' !! f = None).
Proof.
  intros st'. unfold st', Session.triggerAutoSuggest, Session.panels_shown,
    Session.hasUploadedFile, Session.autoSuggest.
  destruct (UI.currentFileId st) as [id|]; [|by repeat split].
  destruct (truthy id) eqn:Hid.
  - split; [done|]. split; [done|].
    intros id' data [= <-] _ Hdata. rewrite Hdata; simpl.
    assert (UI.mapping
              (run_updates
                 (let '(newMapping, count) := UI.auto_loop (UI.suggestions data) in
                  [UI.setMapping (λ _, newMapping);
                   UI.setStatusMessage
                     (if (0 <? count)%nat
                      then "Auto-mapped " +:+ pretty count +:+ " columns."
                      else "No confident matches found.")])
                 (UI.setStatusMessage "Generating suggestions..." st))
            = (UI.auto_loop (UI.suggestions data)).1) as Hm.
    { by destruct (UI.auto_loop (UI.suggestions data)). }
    split; [exact Hm|]. intros f Hf. rewrite Hm.
    destruct (decide (f = "__proto__")) as [->|Hproto];
      [apply auto_loop_proto|].
    rewrite auto_loop_lookup by done.
    destruct (last_applied (UI.suggestions data) f) as [s|] eqn:Hs; [|done].
    assert (is_Some (last_applied (UI.suggestions data) f)) as Hsome
      by (by eexists).
    apply last_applied_is_Some in Hsome as (s' & Hin & Heq & _).
    by destruct (Hf s' Hin).
  - split; [done|]. split; [done|].
    intros id' data [= <-] Hne. apply truthy_true in Hne. congruence.
Qed.

Lemma triggerAutoSuggest_replaces_mapping_witness :
  let data := {| UI.suggestions :=
                   [ {| UI.schema_field := "email"; UI.csv_column := "E-mail";
                        UI.confidence := 9 # 10 |} ] |} in
  let b := {| Session.answer_columns := λ _ _, Rejected "";
              Session.answer_preview := λ _ _, Rejected "";
              Session.answer_suggest := λ _ _, Resolved data;
              Session.answer_mappings := Rejected "" |} in
  let st := {| UI.schema := None; UI.savedMappings := [];
               UI.previewRows := []; UI.currentFileId := Some "f1";
               UI.currentHasHeader := true; UI.csvColumns := [];
               UI.mapping := {[ "status" := JString "State" ]};
               UI.statusMessage := "" |} in
  UI.mapping (run_updates (Session.triggerAutoSuggest b st) st) !! "status"
  = None.
Proof.
  intros data b st.
  destruct (triggerAutoSuggest_replaces_mapping b st) as (_ & _ & Hrun).
  destruct (Hrun "f1" data eq_refl) as [_ Hgone]; [done|reflexivity|].
  apply Hgone. intros s Hs. apply list_elem_of_singleton in Hs as ->. done.
Defined.

(** ** The addresses of the GET calls *)

Lemma occurs_app (x : ascii) (a b : string) :
  occurs x (a +:+ b) = occurs x a || occurs x b.
Proof.
  induction a as [|c a IH]; [done|].
  change (String c a +:+ b) with (String c (a +:+ b)). simpl.
  by rewrite IH, orb_assoc.
Qed.

Lemma string_forall_app (p : ascii → bool) (a b : string) :
  string_forall p (a +:+ b) = string_forall p a && string_forall p b.
Proof.
  induction a as [|c a IH]; [done|].
  change (String c a +:+ b) with (String c (a +:+ b)). simpl.
  by rewrite IH, andb_assoc.
Qed.

Lemma split_on_absent (sep : ascii) (a : string) :
  occurs sep a = false → split_on sep a = [a].
Proof.
  induction a as [|c a IH]; simpl; [done|].
  intros [Hc Ha]%orb_false_iff. by rewrite Hc, IH.
Qed.

Lemma split_on_first (sep : ascii) (a b : string) :
  occurs sep a = false →
  split_on sep (a +:+ String sep b) = a :: split_on sep b.
Proof.
  induction a as [|c a IH]; intros Ha.
  - change (EmptyString +:+ String sep b) with (String sep b). simpl.
    by rewrite Ascii.eqb_refl.
  - change (String c a +:+ String sep b) with (String c (a +:+ String sep b)).
    simpl in *. apply orb_false_iff in Ha as [Hc Ha]. by rewrite Hc, IH.
Qed.

Lemma encode_unit_escaped (c : ascii) :
  string_forall escaped_char (Api.encode_unit c) = true.
Proof. destruct c as [[] [] [] [] [] [] [] []]; by vm_compute. Qed.

Lemma encodeURIComponent_escaped (s : string) :
  string_forall escaped_char (Api.encodeURIComponent s) = true.
Proof.
  induction s as [|c s IH]; simpl; [done|].
  by rewrite string_forall_app, encode_unit_escaped, IH.
Qed.

Lemma escaped_no_delimiter (x : ascii) (s : string) :
  x ∈ delimiters →
  string_forall escaped_char s = true → occurs x s = false.
Proof.
  intros Hx. induction s as [|c s IH]; simpl; [done|].
  intros [Hc Hs]%andb_true_iff. rewrite (IH Hs), orb_false_r.
  apply Ascii.eqb_neq. intros ->. unfold delimiters in Hx.
  repeat (apply elem_of_cons in Hx as [->|Hx]; [by vm_compute in Hc|]).
  by apply elem_of_nil in Hx.
Qed.

Lemma encodeURIComponent_no_delimiter (x : ascii) (s : string) :
  x ∈ delimiters → occurs x (Api.encodeURIComponent s) = false.
Proof.
  intros Hx. apply escaped_no_delimiter; [done|].
  apply encodeURIComponent_escaped.
Qed.

Lemma unescape_unit (c : ascii) (r : string) :
  unescape (Api.encode_unit c +:+ r) = String c <$> unescape r.
Proof. destruct c as [[] [] [] [] [] [] [] []]; reflexivity. Qed.

Lemma unescape_encodeURIComponent (s : string) :
  unescape (Api.encodeURIComponent s) = Some s.
Proof.
  induction s as [|c s IH]; simpl; [done|].
  by rewrite unescape_unit, IH.
Qed.

Lemma bool_text_no_delimiter (x : ascii) (b : bool) :
  x ∈ delimiters → occurs x (Api.bool_text b) = false.
Proof.
  intros Hx. unfold delimiters in Hx.
  repeat (apply elem_of_cons in Hx as [->|Hx]; [by destruct b|]).
  by apply elem_of_nil in Hx.
Qed.

(** Membership of a given character in a given list. *)
Ltac in_list :=
  unfold delimiters;
  repeat first [apply list_elem_of_here | apply list_elem_of_further].

Lemma file_query_params (path fileId : string) (hasHeader : bool) :
  occurs "?" path = false →
  query_params
    (path +:+ "?file_id=" +:+ Api.encodeURIComponent fileId
     +:+ "&has_header=" +:+ Api.bool_text hasHeader)
  = [ ["file_id"; Api.encodeURIComponent fileId];
      ["has_header"; Api.bool_text hasHeader] ].
Proof.
  intros Hpath. unfold query_params.
  change (path +:+ "?file_id=" +:+ ?r)
    with (path +:+ String "?" ("file_id=" +:+ r)).
  rewrite (split_on_first _ _ _ Hpath).
  assert (∀ x, x ∈ delimiters → x ≠ "="%char → x ≠ "&"%char →
            occurs x ("file_id=" +:+ Api.encodeURIComponent fileId
                      +:+ "&has_header=" +:+ Api.bool_text hasHeader) = false)
    as Hq.
  { intros x Hx He Ha.
    rewrite !occurs_app, encodeURIComponent_no_delimiter,
      bool_text_no_delimiter by done.
    unfold delimiters in Hx.
    repeat (apply elem_of_cons in Hx as [->|Hx]; [done|]).
    by apply elem_of_nil in Hx. }
  rewrite split_on_absent by (apply Hq; [in_list|done..]).
  change ("file_id=" +:+ ?e +:+ "&has_header=" +:+ ?t)
    with (("file_id=" +:+ e) +:+ String "&" ("has_header=" +:+ t)).
  rewrite split_on_first.
  2:{ rewrite occurs_app, encodeURIComponent_no_delimiter by (in_list || done).
      done. }
  rewrite split_on_absent.
  2:{ rewrite occurs_app, bool_text_no_delimiter by in_list. done. }
  simpl.
  change ("" +:+ Api.encodeURIComponent fileId)
    with (Api.encodeURIComponent fileId).
  change ("" +:+ Api.bool_text hasHeader) with (Api.bool_text hasHeader).
  rewrite (split_on_absent "=" (Api.encodeURIComponent fileId))
    by (apply encodeURIComponent_no_delimiter; in_list).
  rewrite (split_on_absent "=" (Api.bool_text hasHeader))
    by (apply bool_text_no_delimiter; in_list).
  done.
Qed.

Lemma file_query_params_limit (path fileId : string) (hasHeader : bool) :
  occurs "?" path = false →
  query_params
    (path +:+ "?file_id=" +:+ Api.encodeURIComponent fileId
     +:+ "&has_header=" +:+ Api.bool_text hasHeader +:+ "&limit=8")
  = [ ["file_id"; Api.encodeURIComponent fileId];
      ["has_header"; Api.bool_text hasHeader];
      ["limit"; "8"] ].
Proof.
  intros Hpath. unfold query_params.
  change (path +:+ "?file_id=" +:+ ?r)
    with (path +:+ String "?" ("file_id=" +:+ r)).
  rewrite (split_on_first _ _ _ Hpath).
  rewrite split_on_absent.
  2:{ rewrite !occurs_app, encodeURIComponent_no_delimiter,
        bool_text_no_delimiter by (in_list || done). done. }
  change ("file_id=" +:+ ?e +:+ "&has_header=" +:+ ?t +:+ "&limit=8")
    with (("file_id=" +:+ e)
          +:+ String "&" (("has_header=" +:+ t) +:+ String "&" "limit=8")).
  rewrite split_on_first.
  2:{ rewrite occurs_app, encodeURIComponent_no_delimiter by (in_list || done).
      done. }
  rewrite split_on_first.
  2:{ rewrite occurs_app, bool_text_no_delimiter by in_list. done. }
  simpl.
  change ("" +:+ Api.encodeURIComponent fileId)
    with (Api.encodeURIComponent fileId).
  change ("" +:+ Api.bool_text hasHeader) with (Api.bool_text hasHeader).
  rewrite (split_on_absent "=" (Api.encodeURIComponent fileId))
    by (apply encodeURIComponent_no_delimiter; in_list).
  rewrite (split_on_absent "=" (Api.bool_text hasHeader))
    by (apply bool_text_no_delimiter; in_list).
  done.
Qed.

Lemma fetchColumns_params (fileId : string) (hasHeader : bool) :
  query_params (Api.fetchColumns_url fileId hasHeader)
  = [ ["file_id"; Api.encodeURIComponent fileId];
      ["has_header"; Api.bool_text hasHeader] ].
Proof. by apply (file_query_params "/api/columns"). Qed.

Lemma suggestMapping_params (fileId : string) (hasHeader : bool) :
  query_params (Api.suggestMapping_url fileId hasHeader)
  = [ ["file_id"; Api.encodeURIComponent fileId];
      ["has_header"; Api.bool_text hasHeader] ].
Proof. by apply (file_query_params "/api/suggest-mapping"). Qed.

Lemma fetchPreview_params (fileId : string) (hasHeader : bool) :
  query_params (Api.fetchPreview_url fileId hasHeader)
  = [ ["file_id"; Api.encodeURIComponent fileId];
      ["has_header"; Api.bool_text hasHeader];
      ["limit"; "8"] ].
Proof. by apply (file_query_params_limit "/api/preview"). Qed.

(** Whatever the file id is, its escaped form holds none of the
    characters that structure an address, so the three addresses built
    from it have exactly the parameters the code writes: [file_id] with
    the escaped id, [has_header] with [true] or [false], and for the
    preview [limit] with 8. *)
Theorem file_id_cannot_change_the_query (fileId : string) (hasHeader : bool) :
  (∀ x, x ∈ delimiters → occurs x (Api.encodeURIComponent fileId) = false)
  ∧ query_params (Api.fetchColumns_url fileId hasHeader)
    = [ ["file_id"; Api.encodeURIComponent fileId];
        ["has_header"; Api.bool_text hasHeader] ]
  ∧ query_params (Api.suggestMapping_url fileId hasHeader)
    = [ ["file_id"; Api.encodeURIComponent fileId];
        ["has_header"; Api.bool_text hasHeader] ]
  ∧ query_params (Api.fetchPreview_url fileId hasHeader)
    = [ ["file_id"; Api.encodeURIComponent fileId];
        ["has_header"; Api.bool_text hasHeader];
        ["limit"; "8"] ].
Proof.
  split; [intros x; apply encodeURIComponent_no_delimiter|].
  split; [apply fetchColumns_params|].
  split; [apply suggestMapping_params|apply fetchPreview_params].
Qed.

Lemma file_id_cannot_change_the_query_witness :
  occurs "&" (Api.encodeURIComponent "a&has_header=false#") = false.
Proof.
  apply (file_id_cannot_change_the_query "a&has_header=false#" true).
  in_list.
Defined.

Lemma bool_text_inj (h h' : bool) : Api.bool_text h = Api.bool_text h' → h = h'.
Proof. by destruct h, h'. Qed.

(** Escaping loses nothing: two file ids with the same escaped form are
    the same id, so the addresses of the columns, of the suggestions and
    of the preview of two different files, or of one file read with and
    without header, are different addresses. *)
Theorem file_addresses_are_distinct (f f' : string) (h h' : bool) :
  (Api.encodeURIComponent f = Api.encodeURIComponent f' → f = f')
  ∧ (Api.fetchColumns_url f h = Api.fetchColumns_url f' h' → f = f' ∧ h = h')
  ∧ (Api.suggestMapping_url f h = Api.suggestMapping_url f' h' →
     f = f' ∧ h = h')
  ∧ (Api.fetchPreview_url f h = Api.fetchPreview_url f' h' → f = f' ∧ h = h').
Proof.
  assert (Api.encodeURIComponent f = Api.encodeURIComponent f' → f = f')
    as Hinj.
  { intros Heq.
    pose proof (unescape_encodeURIComponent f) as Hf.
    rewrite Heq, unescape_encodeURIComponent in Hf. by injection Hf. }
  split; [exact Hinj|].
  pose proof (fetchColumns_params f h) as Hc.
  pose proof (fetchColumns_params f' h') as Hc'.
  pose proof (suggestMapping_params f h) as Hs.
  pose proof (suggestMapping_params f' h') as Hs'.
  pose proof (fetchPreview_params f h) as Hp.
  pose proof (fetchPreview_params f' h') as Hp'.
  split; [|split]; intros Heq.
  - rewrite Heq, Hc' in Hc. injection Hc as He Hb.
    split; [by apply Hinj|by apply bool_text_inj].
  - rewrite Heq, Hs' in Hs. injection Hs as He Hb.
    split; [by apply Hinj|by apply bool_text_inj].
  - rewrite Heq, Hp' in Hp. injection Hp as He Hb.
    split; [by apply Hinj|by apply bool_text_inj].
Qed.

Lemma file_addresses_are_distinct_witness :
  Api.fetchColumns_url "a b" true = Api.fetchColumns_url "a b" true
  ∧ "a b" = "a b".
Proof.
  split; [reflexivity|].
  apply (file_addresses_are_distinct "a b" "a b" true true). reflexivity.
Defined.
